(** * NyayaAI front end: response normalisation, API client, keep-alive
      handler, chat input and application state.

    A shallow embedding of the JavaScript sources

      - ChatMessage component   ([flattenToString], [normalizeData])
      - api/client              ([askQuestion])
      - api/keep-alive.js       ([handler])
      - components/ChatInput    ([handleSubmit])
      - App                     ([handleSend])

    JavaScript strings are sequences of UTF-16 code units, JSON values are
    a tagged union, exceptions are an explicit error result, and React
    state is threaded explicitly.  The built-ins the sources call
    ([JSON.parse], [String.prototype.trim/replace/split/includes],
    [Array.prototype.join], [Object.entries], ToString) are modelled after
    ECMA-262. *)

From Stdlib Require Import List NArith Bool Ascii String Lia Arith.
From Stdlib Require Import DecimalString.
Import ListNotations.

Set Implicit Arguments.
Set Warnings "-register-all".

(* ================================================================== *)
(** * JavaScript strings *)
(* ================================================================== *)

(** A string is its sequence of UTF-16 code units. *)
Definition jsstring : Type := list N.

(** An ASCII literal as a JavaScript string. *)
Definition str (s : string) : jsstring :=
  map N_of_ascii (list_ascii_of_string s).

(** The double-quote code unit and a quoted ASCII literal, used to write
    JSON text. *)
Definition dquote : N := 34%N.

Definition quoted (s : string) : jsstring := dquote :: str s ++ [dquote].

Fixpoint jseqb (a b : jsstring) : bool :=
  match a, b with
  | [], [] => true
  | x :: a', y :: b' => N.eqb x y && jseqb a' b'
  | _, _ => false
  end.

(** [WhiteSpace] and [LineTerminator] code points of ECMA-262; this is the
    set removed by [trim] and matched by the regular-expression class
    [\s]. *)
Definition isWhiteSpace (c : N) : bool :=
  ((9 <=? c) && (c <=? 13) || (c =? 32) || (c =? 160) || (c =? 5760)
   || (8192 <=? c) && (c <=? 8202) || (c =? 8232) || (c =? 8233)
   || (c =? 8239) || (c =? 8287) || (c =? 12288) || (c =? 65279))%N.

Fixpoint dropWhile (p : N -> bool) (s : jsstring) : jsstring :=
  match s with
  | [] => []
  | c :: t => if p c then dropWhile p t else s
  end.

Fixpoint takeWhile (p : N -> bool) (s : jsstring) : jsstring :=
  match s with
  | [] => []
  | c :: t => if p c then c :: takeWhile p t else []
  end.

Definition trimStart (s : jsstring) : jsstring := dropWhile isWhiteSpace s.

Definition trimEnd (s : jsstring) : jsstring :=
  rev (dropWhile isWhiteSpace (rev s)).

(** [String.prototype.trim]. *)
Definition trim (s : jsstring) : jsstring := trimEnd (trimStart s).

(** [s.startsWith(p)]. *)
Fixpoint startsWith (p s : jsstring) : bool :=
  match p, s with
  | [], _ => true
  | x :: p', y :: s' => N.eqb x y && startsWith p' s'
  | _ :: _, [] => false
  end.

(** [s.includes(needle)]. *)
Fixpoint includes (needle s : jsstring) : bool :=
  startsWith needle s ||
  match s with
  | [] => false
  | _ :: t => includes needle t
  end.

(** [s.split(sep)] for a one-code-unit separator: always at least one
    piece. *)
Fixpoint split (sep : N) (s : jsstring) : list jsstring :=
  match s with
  | [] => [[]]
  | c :: t =>
      if N.eqb c sep then [] :: split sep t
      else match split sep t with
           | [] => [[c]]
           | piece :: rest => (c :: piece) :: rest
           end
  end.

(** [pieces.join(sep)] on an array of strings. *)
Fixpoint join (sep : jsstring) (pieces : list jsstring) : jsstring :=
  match pieces with
  | [] => []
  | [p] => p
  | p :: rest => p ++ sep ++ join sep rest
  end.

(** Decimal rendering of a non-negative integer (array indices, HTTP
    status codes). *)
Definition decimal (n : N) : jsstring :=
  str (NilEmpty.string_of_uint (N.to_uint n)).

(** Global replacement by the empty string, [s.replace(/re/g, '')], for a
    regular expression that never matches the empty string.  [matchLen]
    gives the length of the match of [re] anchored at the start of its
    argument; [skip] counts the code units of the current match still to
    be dropped. *)
Fixpoint removeAll (matchLen : jsstring -> option nat) (skip : nat)
    (s : jsstring) : jsstring :=
  match s with
  | [] => []
  | c :: t =>
      match skip with
      | S k => removeAll matchLen k t
      | O =>
          match matchLen s with
          | Some (S k) => removeAll matchLen k t
          | _ => c :: removeAll matchLen O t
          end
      end
  end.

(** The regular expression [/```json?\s*/]: three backticks, [jso], an
    optional [n], then the longest run of white space. *)
Definition fenceOpenLen (s : jsstring) : option nat :=
  if startsWith (str "```jso") s then
    let rest := skipn 6 s in
    let n := match rest with
             | c :: _ => if N.eqb c 110 then 1 else 0
             | [] => 0
             end in
    Some (6 + n + List.length (takeWhile isWhiteSpace (skipn n rest)))
  else None.

(** The regular expression [/```\s*$/]: three backticks followed by white
    space only, up to the end of the input. *)
Definition fenceCloseLen (s : jsstring) : option nat :=
  if startsWith (str "```") s then
    match dropWhile isWhiteSpace (skipn 3 s) with
    | [] => Some (List.length s)
    | _ :: _ => None
    end
  else None.

(** [s.replace(/```json?\s*/g, '').replace(/```\s*$/g, '')], the fence
    stripping shared by both parse sites of [normalizeData]. *)
Definition stripFences (s : jsstring) : jsstring :=
  removeAll fenceCloseLen 0 (removeAll fenceOpenLen 0 s).

(* ================================================================== *)
(** * Host parameters, values and exceptions *)
(* ================================================================== *)

(** What the development takes from the JavaScript engine without
    modelling it: IEEE-754 numbers (reading a JSON numeric literal,
    Number::toString, and the test for zero that decides truthiness),
    and the implementation-defined message texts of engine-raised
    errors. *)
Class Host : Type := {
  number : Type;
  Number_ofLiteral : jsstring -> number;
  Number_toString : number -> jsstring;
  Number_isZero : number -> bool;
  msgCannotConvert : jsstring;
  msgNullRead : jsstring -> jsstring;
  msgJSONSyntax : jsstring -> jsstring
}.

(** Exceptions: [Error] objects created by the sources, and the
    [TypeError] / [SyntaxError] objects raised by the engine.  Each
    carries its [message]. *)
Inductive exn : Type :=
| Error (message : jsstring)
| TypeError (message : jsstring)
| SyntaxError (message : jsstring).

Definition exn_message (e : exn) : jsstring :=
  match e with
  | Error m | TypeError m | SyntaxError m => m
  end.

(** Completion of an evaluation (or settlement of a promise): a value, or
    a thrown exception (a rejection). *)
Inductive result (A : Type) : Type :=
| Ok (a : A)
| Throw (e : exn).

Arguments Ok {A} a.
Arguments Throw {A} e.

Definition bind {A B : Type} (m : result A) (k : A -> result B) : result B :=
  match m with
  | Ok a => k a
  | Throw e => Throw e
  end.

Notation "x <- m ;; k" := (bind m (fun x => k))
  (at level 61, m at next level, right associativity).

(** [items.map(f)] where [f] may throw: left to right, the first exception
    wins. *)
Fixpoint mapM {A B : Type} (f : A -> result B) (l : list A) : result (list B) :=
  match l with
  | [] => Ok []
  | a :: t => b <- f a ;; bs <- mapM f t ;; Ok (b :: bs)
  end.

(** [promise.catch(h)] / [try { } catch { }]. *)
Definition catch {A : Type} (m : result A) (h : exn -> result A) : result A :=
  match m with
  | Ok a => Ok a
  | Throw e => h e
  end.

Section Values.
Context {host : Host}.

(** The values that reach the sources: JSON values and [undefined].  An
    object is the list of its own properties in creation order, with
    distinct keys. *)
Inductive value : Type :=
| VUndefined
| VNull
| VBool (b : bool)
| VNum (n : number)
| VStr (s : jsstring)
| VArr (items : list value)
| VObj (props : list (jsstring * value)).

(** ToBoolean.  JSON cannot produce NaN, so a number is falsy exactly
    when it is zero. *)
Definition truthy (v : value) : bool :=
  match v with
  | VUndefined | VNull => false
  | VBool b => b
  | VNum n => negb (Number_isZero n)
  | VStr s => match s with [] => false | _ :: _ => true end
  | VArr _ | VObj _ => true
  end.

(** [typeof v === 'object'] (which holds of [null]) and
    [Array.isArray(v)]. *)
Definition typeofObject (v : value) : bool :=
  match v with
  | VNull | VArr _ | VObj _ => true
  | _ => false
  end.

Definition isArray (v : value) : bool :=
  match v with
  | VArr _ => true
  | _ => false
  end.

Fixpoint lookup (k : jsstring) (props : list (jsstring * value)) : option value :=
  match props with
  | [] => None
  | (k', v) :: rest => if jseqb k k' then Some v else lookup k rest
  end.

Definition hasOwn (k : jsstring) (props : list (jsstring * value)) : bool :=
  match lookup k props with
  | Some _ => true
  | None => false
  end.

(** CreateDataProperty: an existing key keeps its position and takes the
    new value; a new key goes last. *)
Fixpoint setProp (k : jsstring) (v : value) (props : list (jsstring * value))
  : list (jsstring * value) :=
  match props with
  | [] => [(k, v)]
  | (k', v') :: rest =>
      if jseqb k k' then (k, v) :: rest else (k', v') :: setProp k v rest
  end.

(** Property read [v.k] for the names the sources read ([summary],
    [relevant_law], [your_rights], [next_steps], [disclaimer], [sources],
    [detail]): none of them is inherited from a prototype and none is an
    index or [length], so the read is the own property of an object and
    [undefined] on arrays and primitives; on [null] and [undefined] it
    throws. *)
Definition Get (v : value) (k : jsstring) : result value :=
  match v with
  | VUndefined | VNull => Throw (TypeError (msgNullRead k))
  | VObj props =>
      match lookup k props with
      | Some x => Ok x
      | None => Ok VUndefined
      end
  | _ => Ok VUndefined
  end.

(** Optional chaining [v?.k]. *)
Definition GetOpt (v : value) (k : jsstring) : value :=
  match v with
  | VObj props =>
      match lookup k props with
      | Some x => x
      | None => VUndefined
      end
  | _ => VUndefined
  end.

(* ================================================================== *)
(** * [JSON.parse] *)
(* ================================================================== *)

Inductive token : Type :=
| TLBrace | TRBrace | TLBracket | TRBracket | TColon | TComma
| TTrue | TFalse | TNull
| TNum (literal : jsstring)
| TStr (s : jsstring).

(** States of the automaton for the JSON number grammar: an optional
    minus sign; a single zero, or a non-zero digit followed by digits; an
    optional fraction (a dot and at least one digit); an optional exponent
    (e or E, an optional sign, at least one digit). *)
Inductive numState : Type :=
| NMinus | NZero | NInt | NDot | NFrac | NE | NESign | NExp.

Definition isDigit (c : N) : bool := ((48 <=? c) && (c <=? 57))%N.

Definition numAccepting (ns : numState) : bool :=
  match ns with
  | NZero | NInt | NFrac | NExp => true
  | _ => false
  end.

Definition numStep (ns : numState) (c : N) : option numState :=
  let isE := ((c =? 101) || (c =? 69))%N in
  match ns with
  | NMinus => if N.eqb c 48 then Some NZero
              else if isDigit c then Some NInt else None
  | NZero => if N.eqb c 46 then Some NDot
             else if isE then Some NE else None
  | NInt => if isDigit c then Some NInt
            else if N.eqb c 46 then Some NDot
            else if isE then Some NE else None
  | NDot => if isDigit c then Some NFrac else None
  | NFrac => if isDigit c then Some NFrac
             else if isE then Some NE else None
  | NE => if isDigit c then Some NExp
          else if ((c =? 43) || (c =? 45))%N then Some NESign else None
  | NESign => if isDigit c then Some NExp else None
  | NExp => if isDigit c then Some NExp else None
  end.

Definition hexValue (c : N) : option N :=
  if isDigit c then Some (c - 48)%N
  else if ((97 <=? c) && (c <=? 102))%N then Some (c - 87)%N
  else if ((65 <=? c) && (c <=? 70))%N then Some (c - 55)%N
  else None.

(** Lexer states: between tokens; inside a string (characters so far,
    reversed); after a backslash; inside a [\uXXXX] escape; inside a
    number; inside one of the literals [true], [false], [null]. *)
Inductive lexState : Type :=
| LStart
| LStr (acc : jsstring)
| LEsc (acc : jsstring)
| LHex (acc : jsstring) (seen : nat) (code : N)
| LNum (ns : numState) (acc : jsstring)
| LLit (expected : jsstring) (tok : token).

(** JSON white space is exactly tab, line feed, carriage return, space. *)
Definition isJSONSpace (c : N) : bool :=
  ((c =? 9) || (c =? 10) || (c =? 13) || (c =? 32))%N.

Definition lexStart (c : N) : option (list token * lexState) :=
  if isJSONSpace c then Some ([], LStart)
  else if N.eqb c 123 then Some ([TLBrace], LStart)
  else if N.eqb c 125 then Some ([TRBrace], LStart)
  else if N.eqb c 91 then Some ([TLBracket], LStart)
  else if N.eqb c 93 then Some ([TRBracket], LStart)
  else if N.eqb c 58 then Some ([TColon], LStart)
  else if N.eqb c 44 then Some ([TComma], LStart)
  else if N.eqb c 34 then Some ([], LStr [])
  else if N.eqb c 45 then Some ([], LNum NMinus [c])
  else if N.eqb c 48 then Some ([], LNum NZero [c])
  else if isDigit c then Some ([], LNum NInt [c])
  else if N.eqb c 116 then Some ([], LLit (str "rue") TTrue)
  else if N.eqb c 102 then Some ([], LLit (str "alse") TFalse)
  else if N.eqb c 110 then Some ([], LLit (str "ull") TNull)
  else None.

Definition lexEscape (c : N) : option N :=
  if N.eqb c 34 then Some 34%N
  else if N.eqb c 92 then Some 92%N
  else if N.eqb c 47 then Some 47%N
  else if N.eqb c 98 then Some 8%N
  else if N.eqb c 102 then Some 12%N
  else if N.eqb c 110 then Some 10%N
  else if N.eqb c 114 then Some 13%N
  else if N.eqb c 116 then Some 9%N
  else None.

(** One code unit: the tokens completed by it and the next state, or
    [None] on a lexical error. *)
Definition lexStep (st : lexState) (c : N) : option (list token * lexState) :=
  match st with
  | LStart => lexStart c
  | LStr acc =>
      if N.eqb c 34 then Some ([TStr (rev acc)], LStart)
      else if N.eqb c 92 then Some ([], LEsc acc)
      else if (c <? 32)%N then None
      else Some ([], LStr (c :: acc))
  | LEsc acc =>
      if N.eqb c 117 then Some ([], LHex acc 0 0%N)
      else match lexEscape c with
           | Some d => Some ([], LStr (d :: acc))
           | None => None
           end
  | LHex acc seen code =>
      match hexValue c with
      | Some d =>
          let code' := (code * 16 + d)%N in
          if Nat.eqb seen 3 then Some ([], LStr (code' :: acc))
          else Some ([], LHex acc (S seen) code')
      | None => None
      end
  | LNum ns acc =>
      match numStep ns c with
      | Some ns' => Some ([], LNum ns' (c :: acc))
      | None =>
          if numAccepting ns then
            match lexStart c with
            | Some (toks, st') => Some (TNum (rev acc) :: toks, st')
            | None => None
            end
          else None
      end
  | LLit expected tok =>
      match expected with
      | e :: rest =>
          if N.eqb c e then
            match rest with
            | [] => Some ([tok], LStart)
            | _ :: _ => Some ([], LLit rest tok)
            end
          else None
      | [] => None
      end
  end.

Fixpoint lex (st : lexState) (s : jsstring) : option (list token) :=
  match s with
  | [] =>
      match st with
      | LStart => Some []
      | LNum ns acc => if numAccepting ns then Some [TNum (rev acc)] else None
      | _ => None
      end
  | c :: t =>
      match lexStep st c with
      | Some (toks, st') =>
          match lex st' t with
          | Some more => Some (toks ++ more)
          | None => None
          end
      | None => None
      end
  end.

(** The parser is a pushdown automaton over tokens.  A frame is an array
    under construction (elements so far, reversed) or an object under
    construction (properties so far, and the key awaiting its value). *)
Inductive frame : Type :=
| FArr (acc : list value)
| FObj (props : list (jsstring * value)) (pending : option jsstring).

Inductive mode : Type :=
| MValue        (* a value must come next *)
| MArrFirst     (* just after [: a value or ] *)
| MObjFirst     (* just after {: a key or } *)
| MKey          (* after a comma inside an object: a key *)
| MColon        (* after a key: a colon *)
| MAfter        (* after a value inside a container: a comma or the close *)
| MDone (v : value).  (* the top-level value is complete *)

(** A completed value goes to the enclosing container, or ends the
    parse. *)
Definition deliver (v : value) (stack : list frame) : option (list frame * mode) :=
  match stack with
  | [] => Some ([], MDone v)
  | FArr acc :: rest => Some (FArr (v :: acc) :: rest, MAfter)
  | FObj props (Some k) :: rest => Some (FObj (setProp k v props) None :: rest, MAfter)
  | FObj _ None :: _ => None
  end.

Definition parseValueStart (tok : token) (stack : list frame)
  : option (list frame * mode) :=
  match tok with
  | TNull => deliver VNull stack
  | TTrue => deliver (VBool true) stack
  | TFalse => deliver (VBool false) stack
  | TNum l => deliver (VNum (Number_ofLiteral l)) stack
  | TStr s => deliver (VStr s) stack
  | TLBracket => Some (FArr [] :: stack, MArrFirst)
  | TLBrace => Some (FObj [] None :: stack, MObjFirst)
  | _ => None
  end.

Definition parseKey (tok : token) (stack : list frame)
  : option (list frame * mode) :=
  match tok, stack with
  | TStr k, FObj props None :: rest => Some (FObj props (Some k) :: rest, MColon)
  | _, _ => None
  end.

Definition parseStep (st : list frame * mode) (tok : token)
  : option (list frame * mode) :=
  let '(stack, m) := st in
  match m with
  | MValue => parseValueStart tok stack
  | MArrFirst =>
      match tok, stack with
      | TRBracket, FArr _ :: rest => deliver (VArr []) rest
      | _, _ => parseValueStart tok stack
      end
  | MObjFirst =>
      match tok, stack with
      | TRBrace, FObj _ _ :: rest => deliver (VObj []) rest
      | _, _ => parseKey tok stack
      end
  | MKey => parseKey tok stack
  | MColon =>
      match tok with
      | TColon => Some (stack, MValue)
      | _ => None
      end
  | MAfter =>
      match tok, stack with
      | TComma, FArr _ :: _ => Some (stack, MValue)
      | TComma, FObj _ _ :: _ => Some (stack, MKey)
      | TRBracket, FArr acc :: rest => deliver (VArr (rev acc)) rest
      | TRBrace, FObj props None :: rest => deliver (VObj props) rest
      | _, _ => None
      end
  | MDone _ => None
  end.

Fixpoint parseTokens (st : list frame * mode) (toks : list token) : option value :=
  match toks with
  | [] =>
      match st with
      | ([], MDone v) => Some v
      | _ => None
      end
  | tok :: rest =>
      match parseStep st tok with
      | Some st' => parseTokens st' rest
      | None => None
      end
  end.

(** [JSON.parse(text)] without a reviver. *)
Definition JSON_parse (text : jsstring) : result value :=
  match lex LStart text with
  | Some toks =>
      match parseTokens ([], MValue) toks with
      | Some v => Ok v
      | None => Throw (SyntaxError (msgJSONSyntax text))
      end
  | None => Throw (SyntaxError (msgJSONSyntax text))
  end.

(* ================================================================== *)
(** * String conversion and property enumeration *)
(* ================================================================== *)

(** ToString (ECMA-262 7.1.17).  An array converts through
    [Array.prototype.join] with a comma, where [null] and [undefined]
    elements give the empty string.  A plain object converts through
    OrdinaryToPrimitive: the inherited [Object.prototype.toString] yields
    [[object Object]], unless the object has an own property [toString];
    a value read from JSON is never callable, the fallback [valueOf]
    (own and not callable, or inherited and returning the object itself)
    yields no primitive, and the conversion throws a TypeError. *)
Fixpoint ToString (v : value) : result jsstring :=
  match v with
  | VUndefined => Ok (str "undefined")
  | VNull => Ok (str "null")
  | VBool true => Ok (str "true")
  | VBool false => Ok (str "false")
  | VNum n => Ok (Number_toString n)
  | VStr s => Ok s
  | VArr items =>
      parts <- (fix elems (l : list value) : result (list jsstring) :=
                  match l with
                  | [] => Ok []
                  | e :: t =>
                      p <- match e with
                           | VUndefined | VNull => Ok []
                           | _ => ToString e
                           end ;;
                      ps <- elems t ;;
                      Ok (p :: ps)
                  end) items ;;
      Ok (join (str ",") parts)
  | VObj props =>
      if hasOwn (str "toString") props
      then Throw (TypeError msgCannotConvert)
      else Ok (str "[object Object]")
  end.

(** The text of one element inside [Array.prototype.join]. *)
Definition elementText (e : value) : result jsstring :=
  match e with
  | VUndefined | VNull => Ok []
  | _ => ToString e
  end.

(** [items.join(sep)] on an array of arbitrary values. *)
Definition Array_join (sep : jsstring) (items : list value) : result jsstring :=
  parts <- mapM elementText items ;;
  Ok (join sep parts).

(** A property key that is an array index: the canonical decimal form of
    an integer below 2^32 - 1. *)
Definition arrayIndex (k : jsstring) : option N :=
  match k with
  | [] => None
  | c :: rest =>
      if forallb isDigit k && (negb (N.eqb c 48) || match rest with [] => true | _ => false end)
      then
        let n := fold_left (fun acc d => (acc * 10 + (d - 48))%N) k 0%N in
        if (n <=? 4294967294)%N then Some n else None
      else None
  end.

Fixpoint insertIndexed (n : N) (kv : jsstring * value)
    (sorted : list (N * (jsstring * value))) : list (N * (jsstring * value)) :=
  match sorted with
  | [] => [(n, kv)]
  | (m, kv') :: rest =>
      if (n <? m)%N then (n, kv) :: sorted
      else (m, kv') :: insertIndexed n kv rest
  end.

(** OrdinaryOwnPropertyKeys: array-index keys in ascending numeric order,
    then the other string keys in creation order. *)
Fixpoint indexedProps (props : list (jsstring * value)) : list (N * (jsstring * value)) :=
  match props with
  | [] => []
  | (k, v) :: rest =>
      match arrayIndex k with
      | Some n => insertIndexed n (k, v) (indexedProps rest)
      | None => indexedProps rest
      end
  end.

Definition namedProps (props : list (jsstring * value)) : list (jsstring * value) :=
  filter (fun kv => match arrayIndex (fst kv) with Some _ => false | None => true end) props.

Fixpoint arrayEntries (i : N) (items : list value) : list (jsstring * value) :=
  match items with
  | [] => []
  | e :: t => (decimal i, e) :: arrayEntries (i + 1) t
  end.

(** [Object.entries(v)] for the arguments the sources pass: an array or a
    plain object. *)
Definition Object_entries (v : value) : list (jsstring * value) :=
  match v with
  | VObj props => map snd (indexedProps props) ++ namedProps props
  | VArr items => arrayEntries 0 items
  | _ => []
  end.

(* ================================================================== *)
(** * ChatMessage helpers: [flattenToString] and [normalizeData] *)
(* ================================================================== *)

(** The arrow function mapped over the entries, lines 24 and 32:
    [([k, v]) => `${k}: ${Array.isArray(v) ? v.join(', ') : v}`]. *)
Definition entryText (kv : jsstring * value) : result jsstring :=
  let '(k, v) := kv in
  t <- match v with
       | VArr items => Array_join (str ", ") items
       | _ => ToString v
       end ;;
  Ok (k ++ str ": " ++ t).

(** [Object.entries(x).map(...).join('. ')]. *)
Definition entriesText (x : value) : result jsstring :=
  parts <- mapM entryText (Object_entries x) ;;
  Ok (join (str ". ") parts).

(** The arrow function of line 20, applied to each item of an array. *)
Definition itemText (item : value) : result jsstring :=
  match item with
  | VStr s => Ok s
  | VArr _ | VObj _ => entriesText item
  | _ => ToString item
  end.

(** Convert any value (string, array, object) into a readable string. *)
Definition flattenToString (val : value) : result jsstring :=
  match val with
  | VUndefined | VNull => Ok []
  | VStr s => Ok s
  | VArr items =>
      parts <- mapM itemText items ;;
      Ok (join (str "; ") parts)
  | VObj _ => entriesText val
  | _ => ToString val
  end.

Definition defaultDisclaimer : jsstring :=
  str "This is informational only and does not constitute legal advice.".

(** The object literal shared by the two early returns of
    [normalizeData] (lines 49 and 54), which differ in [summary] and
    [disclaimer] only. *)
Definition plainResponse (summary disclaimer : jsstring) : value :=
  VObj [ (str "summary", VStr summary);
         (str "relevant_law", VStr []);
         (str "your_rights", VStr []);
         (str "next_steps", VArr []);
         (str "disclaimer", VStr disclaimer) ].

(** Lines 43-51: a string is stripped of fences, trimmed and parsed once.
    [inl] is the early return of the [catch] clause; [inr] is [data]. *)
Definition parseRaw (raw : value) : value + value :=
  match raw with
  | VStr s =>
      let cleaned := trim (stripFences s) in
      match JSON_parse cleaned with
      | Ok parsed =>
          if truthy parsed && typeofObject parsed && negb (isArray parsed)
          then inr parsed
          else inr raw
      | Throw _ => inl (plainResponse s defaultDisclaimer)
      end
  | _ => inr raw
  end.

(** Lines 57-63: a [summary] that is itself the text of a JSON object
    with a truthy [summary] replaces [data]. *)
Definition unwrapSummary (data : value) : result value :=
  s0 <- Get data (str "summary") ;;
  let summary := if truthy s0 then s0 else VStr [] in
  match summary with
  | VStr s =>
      if startsWith (str "{") (trim s) && includes (quoted "summary") s then
        match JSON_parse (stripFences s) with
        | Ok inner =>
            if truthy (GetOpt inner (str "summary")) then Ok inner else Ok data
        | Throw _ => Ok data
        end
      else Ok data
  | _ => Ok data
  end.

Definition nonBlank (s : jsstring) : bool :=
  match trim s with
  | [] => false
  | _ :: _ => true
  end.

(** Lines 69-70: the [next_steps] field. *)
Definition nextSteps (v : value) : result value :=
  match v with
  | VArr items =>
      steps <- mapM flattenToString items ;;
      Ok (VArr (map VStr steps))
  | VStr s => Ok (VArr (map VStr (filter nonBlank (split 10 s))))
  | _ => Ok (VArr [])
  end.

(** The shape of the object literal of lines 65-73. *)
Definition fullResponse (summary relevant_law your_rights : jsstring)
    (next_steps : value) (disclaimer : jsstring) (sources : value) : value :=
  VObj [ (str "summary", VStr summary);
         (str "relevant_law", VStr relevant_law);
         (str "your_rights", VStr your_rights);
         (str "next_steps", next_steps);
         (str "disclaimer", VStr disclaimer);
         (str "sources", sources) ].

(** Lines 65-73: the final object literal. *)
Definition buildResponse (data : value) : result value :=
  v1 <- Get data (str "summary") ;;
  summary <- flattenToString v1 ;;
  v2 <- Get data (str "relevant_law") ;;
  relevant_law <- flattenToString v2 ;;
  v3 <- Get data (str "your_rights") ;;
  your_rights <- flattenToString v3 ;;
  v4 <- Get data (str "next_steps") ;;
  next_steps <- nextSteps v4 ;;
  v5 <- Get data (str "disclaimer") ;;
  d <- flattenToString v5 ;;
  v6 <- Get data (str "sources") ;;
  Ok (fullResponse summary relevant_law your_rights next_steps
        (match d with [] => defaultDisclaimer | _ :: _ => d end)
        (if truthy v6 then v6 else VArr [])).

(** Normalise AI response data: flatten nested structures, parse JSON
    strings. *)
Definition normalizeData (raw : value) : result value :=
  if negb (truthy raw) then Ok (VObj [])
  else
    match parseRaw raw with
    | inl early => Ok early
    | inr data =>
        if negb (typeofObject data) || isArray data then
          s <- ToString raw ;;
          Ok (plainResponse s [])
        else
          data' <- unwrapSummary data ;;
          buildResponse data'
    end.

End Values.

(* ================================================================== *)
(** * api/client: [askQuestion] *)
(* ================================================================== *)

Module Client.
Section Client.
Context {host : Host}.

(** The argument of [fetch]; [payload] is the value handed to
    [JSON.stringify] for the body, when there is one. *)
Record Request : Type := {
  url : jsstring;
  method : jsstring;
  headers : list (jsstring * jsstring);
  payload : option value
}.

(** What the sources read of a fetch [Response]: the status code and the
    body text. *)
Record Response : Type := {
  status : N;
  body : jsstring
}.

(** [response.ok]: the status is in the range 200-299. *)
Definition Response_ok (r : Response) : bool :=
  ((200 <=? status r) && (status r <=? 299))%N.

(** [response.json()]: the body text parsed as JSON; the promise rejects
    with the SyntaxError of the parse. *)
Definition Response_json (r : Response) : result value :=
  JSON_parse (body r).

(** [import.meta.env.VITE_API_URL || '/api']. *)
Definition BASE_URL (VITE_API_URL : option jsstring) : jsstring :=
  match VITE_API_URL with
  | Some (c :: u) => c :: u
  | _ => str "/api"
  end.

Definition askRequest (VITE_API_URL : option jsstring)
    (query language : jsstring) : Request :=
  {| url := BASE_URL VITE_API_URL ++ str "/ask";
     method := str "POST";
     headers := [(str "Content-Type", str "application/json")];
     payload := Some (VObj [ (str "query", VStr query);
                             (str "language", VStr language) ]) |}.

(** Send a legal question and get a structured response.  [fetch] is the
    network: it settles each request with a response or rejects. *)
Definition askQuestion (VITE_API_URL : option jsstring)
    (fetch : Request -> result Response)
    (query : jsstring) (language : option jsstring) : result value :=
  let language := match language with Some l => l | None => str "en" end in
  response <- fetch (askRequest VITE_API_URL query language) ;;
  if negb (Response_ok response) then
    error <- catch (Response_json response)
               (fun _ => Ok (VObj [(str "detail", VStr (str "Unknown error"))])) ;;
    detail <- Get error (str "detail") ;;
    message <- (if truthy detail then ToString detail
                else Ok (str "Server error: " ++ decimal (status response))) ;;
    Throw (Error message)
  else Response_json response.

End Client.
End Client.

(* ================================================================== *)
(** * api/keep-alive.js: [handler] *)
(* ================================================================== *)

Module KeepAlive.
Section KeepAlive.
Context {host : Host}.

(** The outgoing response object [res]: the status code set by
    [res.status] and the JSON payloads sent by [res.json], each with the
    status code it went out under. *)
Record ServerResponse : Type := {
  statusCode : N;
  sent : list (N * value)
}.

Definition res_status (res : ServerResponse) (code : N) : ServerResponse :=
  {| statusCode := code; sent := sent res |}.

Definition res_json (res : ServerResponse) (payload : value) : ServerResponse :=
  {| statusCode := statusCode res;
     sent := sent res ++ [(statusCode res, payload)] |}.

(** [process.env.VITE_API_URL || "https://nyayaai-backend.onrender.com"]. *)
Definition backendUrl (VITE_API_URL : option jsstring) : jsstring :=
  match VITE_API_URL with
  | Some (c :: u) => c :: u
  | _ => str "https://nyayaai-backend.onrender.com"
  end.

Definition healthRequest (VITE_API_URL : option jsstring) : Client.Request :=
  {| Client.url := backendUrl VITE_API_URL ++ str "/health";
     Client.method := str "GET";
     Client.headers := [(str "Accept", str "application/json")];
     Client.payload := None |}.

Definition okPayload (now : jsstring) (data : value) : value :=
  VObj [ (str "status", VStr (str "ok"));
         (str "timestamp", VStr now);
         (str "backend", data) ].

Definition errorPayload (now : jsstring) (message : jsstring) : value :=
  VObj [ (str "status", VStr (str "error"));
         (str "timestamp", VStr now);
         (str "message", VStr message) ].

(** API route handler function.  [now] is [new Date().toISOString()] at
    the time the payload is built. *)
Definition handler (VITE_API_URL : option jsstring)
    (fetch : Client.Request -> result Client.Response)
    (now : jsstring) (res : ServerResponse) : result ServerResponse :=
  catch
    (response <- fetch (healthRequest VITE_API_URL) ;;
     data <- Client.Response_json response ;;
     Ok (res_json (res_status res 200) (okPayload now data)))
    (fun error =>
       Ok (res_json (res_status res 500) (errorPayload now (exn_message error)))).

(** The shape of a payload: its keys, in order. *)
Definition payloadShape (v : value) : list jsstring :=
  match v with
  | VObj props => map fst props
  | _ => []
  end.

End KeepAlive.
End KeepAlive.

(* ================================================================== *)
(** * components/ChatInput: [handleSubmit] *)
(* ================================================================== *)

Module ChatInput.

(** The attributes of the rendered [textarea] that govern what the user
    can enter. *)
Record Textarea : Type := {
  value : jsstring;
  disabled : bool;
  maxLength : nat
}.

Definition render (query : jsstring) (isLoading : bool) : Textarea :=
  {| value := query; disabled := isLoading; maxLength := 2000 |}.

(** [handleSubmit]: the calls made to [onSend], and the next [query]
    state. *)
Definition handleSubmit (isLoading : bool) (query : jsstring)
  : list jsstring * jsstring :=
  let trimmed := trim query in
  if match trimmed with [] => true | _ :: _ => false end || isLoading
  then ([], query)
  else ([trimmed], []).

(** [handleKeyDown]: Enter without Shift submits. *)
Definition handleKeyDown (key : jsstring) (shiftKey : bool)
    (isLoading : bool) (query : jsstring) : list jsstring * jsstring :=
  if jseqb key (str "Enter") && negb shiftKey
  then handleSubmit isLoading query
  else ([], query).

(** What can happen to the component: the user edits the text (the
    browser fires [onChange] with the new value), submits the form, or
    presses a key. *)
Inductive event : Type :=
| Change (v : jsstring)
| Submit
| KeyDown (key : jsstring) (shiftKey : bool).

(** The browser lets the user turn the text into [v] only in an enabled
    textarea and only when [v] has at most [maxLength] code units. *)
Definition userCanEnter (t : Textarea) (v : jsstring) : bool :=
  negb (disabled t) && (List.length v <=? maxLength t).

(** One event under the current [isLoading] prop; [None] when the
    browser does not allow the event. *)
Definition step (isLoading : bool) (query : jsstring) (ev : event)
  : option (list jsstring * jsstring) :=
  match ev with
  | Change v =>
      if userCanEnter (render query isLoading) v then Some ([], v) else None
  | Submit => Some (handleSubmit isLoading query)
  | KeyDown key shiftKey => Some (handleKeyDown key shiftKey isLoading query)
  end.

(** A session: events, each with the [isLoading] prop in force when it
    happens; the result is every query handed to [onSend], in order, and
    the final text. *)
Fixpoint run (events : list (event * bool)) (query : jsstring)
  : option (list jsstring * jsstring) :=
  match events with
  | [] => Some ([], query)
  | (ev, isLoading) :: rest =>
      match step isLoading query ev with
      | Some (sentNow, query') =>
          match run rest query' with
          | Some (sentLater, final) => Some (sentNow ++ sentLater, final)
          | None => None
          end
      | None => None
      end
  end.

End ChatInput.

(* ================================================================== *)
(** * App: [handleSend] *)
(* ================================================================== *)

Module App.
Section App.
Context {host : Host}.

(** [{ role: 'user', content }] and [{ role: 'assistant', data }]. *)
Inductive message : Type :=
| UserMessage (content : jsstring)
| AssistantMessage (data : value).

Record State : Type := {
  messages : list message;
  isLoading : bool;
  language : jsstring;
  error : option jsstring
}.

Definition sorryHindi : jsstring :=
  [2325; 2381; 2359; 2350; 2366; 32; 2325; 2352; 2375; 2306; 44; 32; 2325;
   2369; 2331; 32; 2327; 2337; 2364; 2348; 2337; 2364; 32; 2361; 2379; 32;
   2327; 2312; 2404; 32; 2325; 2371; 2346; 2351; 2366; 32; 2346; 2369; 2344;
   58; 32; 2346; 2381; 2352; 2351; 2366; 2360; 32; 2325; 2352; 2375; 2306;
   2404]%N.

(** The [data] of the assistant message added in the [catch] clause. *)
Definition errorData (language : jsstring) : value :=
  VObj [ (str "summary",
           VStr (if jseqb language (str "hi") then sorryHindi
                 else str "Sorry, something went wrong. Please try again."));
         (str "disclaimer",
           VStr (str "This is informational only and does not constitute legal advice.")) ].

(** Up to the [await]: clear the error, add the user message, raise the
    loading flag. *)
Definition handleSend_begin (query : jsstring) (st : State) : State :=
  {| messages := messages st ++ [UserMessage query];
     isLoading := true;
     language := language st;
     error := None |}.

(** From the settlement of [askQuestion] on: the [try] continuation or
    the [catch] clause, then [finally].  [lang] is the language captured
    by the closure. *)
Definition handleSend_settle (lang : jsstring) (outcome : result value)
    (st : State) : State :=
  match outcome with
  | Ok response =>
      {| messages := messages st ++ [AssistantMessage response];
         isLoading := false;
         language := language st;
         error := error st |}
  | Throw err =>
      {| messages := messages st ++ [AssistantMessage (errorData lang)];
         isLoading := false;
         language := language st;
         error := Some (match exn_message err with
                        | [] => str "Something went wrong. Please try again."
                        | c :: m => c :: m
                        end) |}
  end.

(** [handleSend], with [ask] standing for the imported [askQuestion]. *)
Definition handleSend (ask : jsstring -> option jsstring -> result value)
    (query : jsstring) (st : State) : State :=
  handleSend_settle (language st) (ask query (Some (language st)))
    (handleSend_begin query st).

End App.
End App.

(* ================================================================== *)
(** * Predicates used by the statements *)
(* ================================================================== *)

Section Predicates.
Context {host : Host}.

(** A completion that is a response object whose [disclaimer] is a
    non-empty string. *)
Definition hasDisclaimer (r : result value) : Prop :=
  exists v d, r = Ok v /\ GetOpt v (str "disclaimer") = VStr d /\ d <> [].

Definition isString (v : value) : Prop := exists s, v = VStr s.

Definition isStringArray (v : value) : Prop :=
  exists l : list jsstring, v = VArr (map VStr l).

(** No object anywhere inside the value has an own property [toString];
    such a value converts to a string without an exception. *)
Fixpoint coercible (v : value) : bool :=
  match v with
  | VArr items => forallb coercible items
  | VObj props =>
      negb (hasOwn (str "toString") props)
      && forallb (fun kv => coercible (snd kv)) props
  | _ => true
  end.

(** A proper JSON value: [undefined] occurs nowhere in it and the keys
    of every object are distinct. *)
Inductive properJSON : value -> Prop :=
| proper_null : properJSON VNull
| proper_bool b : properJSON (VBool b)
| proper_num n : properJSON (VNum n)
| proper_str s : properJSON (VStr s)
| proper_arr items : Forall properJSON items -> properJSON (VArr items)
| proper_obj props :
    NoDup (map fst props) ->
    Forall (fun kv => properJSON (snd kv)) props ->
    properJSON (VObj props).

(** The invariant of the parser: what the frames hold is proper. *)
Definition properFrame (f : frame) : Prop :=
  match f with
  | FArr acc => Forall properJSON acc
  | FObj props _ =>
      NoDup (map fst props) /\ Forall (fun kv => properJSON (snd kv)) props
  end.

Definition properState (st : list frame * mode) : Prop :=
  Forall properFrame (fst st) /\
  match snd st with
  | MDone v => properJSON v
  | _ => True
  end.

(** Field [k] of the response [r] is the string that [flattenToString]
    makes of field [k] of [data]. *)
Definition fieldFlattened (data r : value) (k : jsstring) : Prop :=
  exists s, flattenToString (GetOpt data k) = Ok s /\ GetOpt r k = VStr s.

(** What every query handed to [onSend] satisfies: it is not empty and
    has at most 2000 code units. *)
Definition sendable (q : jsstring) : Prop :=
  q <> [] /\ List.length q <= 2000.

(** A non-null, non-array object. *)
Definition isPlainObject (v : value) : bool :=
  match v with
  | VObj _ => true
  | _ => false
  end.

(** Following the words of the specification (section 4.10, step 3): the
    first balanced brace span of a text.  [spec_closeSpan depth s] reads
    [s] up to the brace that closes [depth] open ones. *)
Fixpoint spec_closeSpan (depth : nat) (s : jsstring) : option jsstring :=
  match s with
  | [] => None
  | c :: t =>
      if N.eqb c 123 then option_map (cons c) (spec_closeSpan (S depth) t)
      else if N.eqb c 125 then
        match depth with
        | O => Some [c]
        | S d => option_map (cons c) (spec_closeSpan d t)
        end
      else option_map (cons c) (spec_closeSpan depth t)
  end.

Fixpoint spec_firstBalancedSpan (s : jsstring) : option jsstring :=
  match s with
  | [] => None
  | c :: t =>
      if N.eqb c 123 then
        match spec_closeSpan 0 t with
        | Some body => Some (c :: body)
        | None => spec_firstBalancedSpan t
        end
      else spec_firstBalancedSpan t
  end.

(** Following the words of the specification (section 4.10, steps 1-3):
    a direct parse of the full text; else strip the fence markers and
    retry; else parse the first balanced brace span.  [None] when every
    attempt fails. *)
Definition spec_parseAttempts (raw : jsstring) : option value :=
  match JSON_parse raw with
  | Ok v => Some v
  | Throw _ =>
      match JSON_parse (trim (stripFences raw)) with
      | Ok v => Some v
      | Throw _ =>
          match spec_firstBalancedSpan raw with
          | Some span =>
              match JSON_parse span with
              | Ok v => Some v
              | Throw _ => None
              end
          | None => None
          end
      end
  end.

End Predicates.

(* ================================================================== *)
(** * A concrete host *)
(* ================================================================== *)

(** A host in which a number is its literal and prints back as written
    (exact for canonical literals such as 0, 7 or 404), with the message
    texts of V8. *)
Definition literalIsZero (l : jsstring) : bool :=
  forallb (fun c => negb (isDigit c) || N.eqb c 48)
    (takeWhile (fun c => negb ((c =? 101) || (c =? 69))%N) l).

Definition literalHost : Host := {|
  number := jsstring;
  Number_ofLiteral := fun l => l;
  Number_toString := fun l => l;
  Number_isZero := literalIsZero;
  msgCannotConvert := str "Cannot convert object to primitive value";
  msgNullRead := fun k =>
    str "Cannot read properties of null (reading '" ++ k ++ str "')";
  msgJSONSyntax := fun _ => str "Unexpected token in JSON"
|}.

(* ================================================================== *)
(** * Sample inputs *)
(* ================================================================== *)

(** A quoted ASCII literal inside a JSON string: both quotes escaped. *)
Definition escaped (s : string) : jsstring :=
  [92; 34]%N ++ str s ++ [92; 34]%N.

(** A fenced object: three backticks and [json], a line feed, the object
    with the single member [summary] = [x], a line feed, three
    backticks. *)
Definition fencedSummary : jsstring :=
  str "```json" ++ [10%N] ++
  str "{" ++ quoted "summary" ++ str ":" ++ quoted "x" ++ str "}" ++
  [10%N] ++ str "```".

(** Prose followed by an object: [Answer: ] and then the object with the
    single member [summary] = [x]. *)
Definition proseThenObject : jsstring :=
  str "Answer: {" ++ quoted "summary" ++ str ":" ++ quoted "x" ++ str "}".

(** An object whose [summary] is the text of the object with members
    [summary] = [inner] and [relevant_law] = [L]. *)
Definition doubleEncoded (inner : string) : jsstring :=
  str "{" ++ quoted "summary" ++ str ":" ++ [dquote] ++
  str "{" ++ escaped "summary" ++ str ":" ++ escaped inner ++ str "," ++
  escaped "relevant_law" ++ str ":" ++ escaped "L" ++ str "}" ++
  [dquote] ++ str "}".

(** An object whose [next_steps] is a string of three lines, the middle
    one empty (the line feeds written as JSON escapes). *)
Definition blankLineSteps : jsstring :=
  str "{" ++ quoted "next_steps" ++ str ":" ++ [dquote] ++
  str "a\n\nb" ++ [dquote] ++ str "}".

(** An object whose member [a] is an object with a member [toString]. *)
Definition ownToString : jsstring :=
  str "{" ++ quoted "a" ++ str ":{" ++ quoted "toString" ++ str ":1}}".

(** The network answering every request with the given status and
    body. *)
Definition answering {host : Host} (status : N) (body : jsstring)
  : Client.Request -> result Client.Response :=
  fun _ => Ok {| Client.status := status; Client.body := body |}.

(** The text of the object with the single member [relevant_law] =
    [L]: an answer without a summary. *)
Definition lawOnly : jsstring :=
  str "{" ++ quoted "relevant_law" ++ str ":" ++ quoted "L" ++ str "}".

(* ================================================================== *)
(** * ChatMessage: [formatForCopy] *)
(* ================================================================== *)

Section Copy.
Context {host : Host}.

(** The engine's message for the TypeError raised when a property that
    is not a function is called. *)
Variable msgNotFunction : jsstring.

(** [if (v) text += `${label}:\n${v}\n\n`], lines 79-81. *)
Definition copySection (label : string) (v : value) : result jsstring :=
  if truthy v then
    t <- ToString v ;;
    Ok (str label ++ str ":" ++ [10%N] ++ t ++ [10; 10]%N)
  else Ok [].

(** Truthiness of [v?.length]: the length of an array or of a string, an
    own [length] member of an object, [undefined] otherwise. *)
Definition hasLength (v : value) : bool :=
  match v with
  | VArr items => match items with [] => false | _ :: _ => true end
  | VStr s => match s with [] => false | _ :: _ => true end
  | VObj _ => truthy (GetOpt v (str "length"))
  | _ => false
  end.

(** The callback of [forEach], line 84: [`${i + 1}. ${s}\n`] for the
    items from index [i] on. *)
Fixpoint copyStepLines (i : N) (items : list value) : result jsstring :=
  match items with
  | [] => Ok []
  | s :: rest =>
      t <- ToString s ;;
      more <- copyStepLines (i + 1) rest ;;
      Ok (decimal (i + 1) ++ str ". " ++ t ++ [10%N] ++ more)
  end.

(** Lines 82-86.  Only an array has a [forEach]; on a non-empty string,
    or an object with a truthy [length], the call throws. *)
Definition copySteps (v : value) : result jsstring :=
  if hasLength v then
    match v with
    | VArr items =>
        lines <- copyStepLines 0 items ;;
        Ok (str "Next Steps:" ++ [10%N] ++ lines ++ [10%N])
    | _ => Throw (TypeError msgNotFunction)
    end
  else Ok [].

(** The warning sign U+26A0 that opens the disclaimer line. *)
Definition warningSign : N := 9888%N.

(** Line 87. *)
Definition copyDisclaimer (v : value) : result jsstring :=
  if truthy v then
    t <- ToString v ;;
    Ok ([warningSign; 32%N] ++ t)
  else Ok [].

(** Build plain-text version for copy button. *)
Definition formatForCopy (data : value) : result jsstring :=
  v1 <- Get data (str "summary") ;;
  t1 <- copySection "Summary" v1 ;;
  v2 <- Get data (str "relevant_law") ;;
  t2 <- copySection "Relevant Law" v2 ;;
  v3 <- Get data (str "your_rights") ;;
  t3 <- copySection "Your Rights" v3 ;;
  v4 <- Get data (str "next_steps") ;;
  t4 <- copySteps v4 ;;
  v5 <- Get data (str "disclaimer") ;;
  t5 <- copyDisclaimer v5 ;;
  Ok (trim (t1 ++ t2 ++ t3 ++ t4 ++ t5)).

End Copy.

(* ================================================================== *)
(** * ChatMessage: the typewriter hook *)
(* ================================================================== *)

Module Typewriter.

(** [fullText.split(/(\s+)/)]: the pieces between the maximal runs of
    white space, with the runs themselves kept in between.  A text that
    begins or ends with white space gets an empty first or last piece. *)
Fixpoint splitWords (s : jsstring) : list jsstring :=
  match s with
  | [] => [[]]
  | c :: t =>
      match splitWords t with
      | [] => [[c]]
      | w :: rest =>
          if isWhiteSpace c then
            match w, rest with
            | [], run :: rest' => [] :: (c :: run) :: rest'
            | _, _ => [] :: [c] :: w :: rest
            end
          else (c :: w) :: rest
      end
  end.

(** The state of [useTypewriter]: the [words] ref and the two state
    variables. *)
Record State : Type := {
  words : list jsstring;
  wordIndex : nat;
  isTyping : bool
}.

(** The first effect (lines 107-125), run when [fullText] or
    [shouldAnimate] is set. *)
Definition start (fullText : jsstring) (shouldAnimate : bool) : State :=
  match fullText with
  | [] => {| words := []; wordIndex := 0; isTyping := false |}
  | _ :: _ =>
      let ws := splitWords fullText in
      if shouldAnimate
      then {| words := ws; wordIndex := 0; isTyping := true |}
      else {| words := ws; wordIndex := List.length ws; isTyping := false |}
  end.

(** [w.trim() === '']. *)
Definition blank (w : jsstring) : bool :=
  match trim w with
  | [] => true
  | _ :: _ => false
  end.

(** One run of the second effect (lines 127-142) together with the timer
    it sets: at the end of the words typing stops; otherwise the timer
    advances the index by one token, or by three when the current token
    is blank. *)
Definition tick (st : State) : State :=
  let len := List.length (words st) in
  if negb (isTyping st) || (len <=? wordIndex st) then
    if (len <=? wordIndex st) && (0 <? len)
    then {| words := words st; wordIndex := wordIndex st; isTyping := false |}
    else st
  else
    let step := if blank (nth (wordIndex st) (words st) []) then 3 else 1 in
    {| words := words st;
       wordIndex := Nat.min (wordIndex st + step) len;
       isTyping := true |}.

Fixpoint ticks (n : nat) (st : State) : State :=
  match n with
  | O => st
  | S k => ticks k (tick st)
  end.

(** [words.current.slice(0, wordIndex).join('')]. *)
Definition displayedText (st : State) : jsstring :=
  List.concat (firstn (wordIndex st) (words st)).

End Typewriter.

(* ================================================================== *)
(** * ChatMessage: staggered reveal of the sections *)
(* ================================================================== *)

Module ChatMessage.
Section ChatMessage.
Context {host : Host}.

(** The state of an assistant message card whose [isLatest] prop stays
    the same: [revealedSections], and the typewriter of the summary when
    the summary is rendered (that is, when [data.summary] is truthy). *)
Record State : Type := {
  revealedSections : nat;
  summary : option Typewriter.State
}.

(** The summary as the text handed to [TypewriterText]. *)
Definition summaryText (data : value) : jsstring :=
  match GetOpt data (str "summary") with
  | VStr s => s
  | _ => []
  end.

Definition init (isLatest : bool) (data : value) : State :=
  {| revealedSections := if isLatest then 0 else 99;
     summary := if truthy (GetOpt data (str "summary"))
                then Some (Typewriter.start (summaryText data) isLatest)
                else None |}.

(** The stagger effect, lines 341-350. *)
Definition stagger (isLatest : bool) (st : State) : State :=
  if isLatest && negb (revealedSections st =? 0) && (revealedSections st <? 5)
  then {| revealedSections := S (revealedSections st); summary := summary st |}
  else st.

(** One timer event.  While the summary is typing, [revealedSections] is
    0 and the stagger timer is not set, so the only timer is the
    typewriter's; when its tick ends the typing, [TypewriterText] calls
    [onFinished], which is [revealNext].  Afterwards the only timer is
    the stagger timer. *)
Definition tick (isLatest : bool) (st : State) : State :=
  match summary st with
  | Some tw =>
      if Typewriter.isTyping tw then
        let tw' := Typewriter.tick tw in
        {| revealedSections :=
             if Typewriter.isTyping tw' then revealedSections st
             else S (revealedSections st);
           summary := Some tw' |}
      else stagger isLatest st
  | None => stagger isLatest st
  end.

Fixpoint ticks (isLatest : bool) (n : nat) (st : State) : State :=
  match n with
  | O => st
  | S k => ticks isLatest k (tick isLatest st)
  end.

Inductive part : Type :=
| Summary | RelevantLaw | YourRights | NextSteps | DisclaimerLine | Actions.

(** What the card shows, lines 384-415: the summary when it is truthy,
    each further section once enough sections are revealed and its
    content is not empty, the actions bar after all of them. *)
Definition visible (data : value) (st : State) : list part :=
  let n := revealedSections st in
  let shown (p : part) (b : bool) := if b then [p] else [] in
  shown Summary (truthy (GetOpt data (str "summary"))) ++
  shown RelevantLaw ((1 <=? n) && truthy (GetOpt data (str "relevant_law"))) ++
  shown YourRights ((2 <=? n) && truthy (GetOpt data (str "your_rights"))) ++
  shown NextSteps ((3 <=? n) && hasLength (GetOpt data (str "next_steps"))) ++
  shown DisclaimerLine ((4 <=? n) && truthy (GetOpt data (str "disclaimer"))) ++
  shown Actions (5 <=? n).

End ChatMessage.
End ChatMessage.

(* ================================================================== *)
(** * ChatMessage: the card of an assistant message *)
(* ================================================================== *)

Section Card.
Context {host : Host}.
Variable msgNotFunction : jsstring.

(** The render of an assistant message (lines 366-418) whose [isLatest]
    prop has had the same value since it was mounted, [n] timer events
    after the mount: [normalizeData(message.data)], then
    [formatForCopy(data)], then the parts of lines 384-415.  An
    exception of either call is thrown by the render. *)
Definition card (isLatest : bool) (n : nat) (messageData : value)
  : result (list ChatMessage.part) :=
  data <- normalizeData messageData ;;
  copyText <- formatForCopy msgNotFunction data ;;
  Ok (ChatMessage.visible data
        (ChatMessage.ticks isLatest n (ChatMessage.init isLatest data))).

End Card.

(* ================================================================== *)
(** * api/client: [checkHealth] and [submitFeedback] *)
(* ================================================================== *)

Module ClientCalls.
Section ClientCalls.
Context {host : Host}.

Definition healthRequest (VITE_API_URL : option jsstring) : Client.Request :=
  {| Client.url := Client.BASE_URL VITE_API_URL ++ str "/health";
     Client.method := str "GET";
     Client.headers := [];
     Client.payload := None |}.

(** Check backend health. *)
Definition checkHealth (VITE_API_URL : option jsstring)
    (fetch : Client.Request -> result Client.Response) : result value :=
  response <- fetch (healthRequest VITE_API_URL) ;;
  Client.Response_json response.

Definition feedbackRequest (VITE_API_URL : option jsstring)
    (query : jsstring) (rating : value) (comment : value) : Client.Request :=
  {| Client.url := Client.BASE_URL VITE_API_URL ++ str "/feedback";
     Client.method := str "POST";
     Client.headers := [(str "Content-Type", str "application/json")];
     Client.payload := Some (VObj [ (str "query", VStr query);
                                    (str "rating", rating);
                                    (str "comment", comment) ]) |}.

(** Submit user feedback.  An omitted [comment] is [null]. *)
Definition submitFeedback (VITE_API_URL : option jsstring)
    (fetch : Client.Request -> result Client.Response)
    (query : jsstring) (rating : value) (comment : option value) : result value :=
  let comment := match comment with Some c => c | None => VNull end in
  response <- fetch (feedbackRequest VITE_API_URL query rating comment) ;;
  if negb (Client.Response_ok response)
  then Throw (Error (str "Failed to submit feedback"))
  else Client.Response_json response.

End ClientCalls.
End ClientCalls.

(* ================================================================== *)
(** * App: suggestions, language toggle and the event loop *)
(* ================================================================== *)

Module Session.
Section Session.
Context {host : Host}.

(** The class of word characters and of the Devanagari block,
    [\w] and [\u0900-\u097F]: ASCII letters, digits, underscore, and
    the code units 0x0900 to 0x097F. *)
Definition wordOrDevanagari (c : N) : bool :=
  (isDigit c || (65 <=? c) && (c <=? 90) || (97 <=? c) && (c <=? 122)
   || (c =? 95) || (2304 <=? c) && (c <=? 2431))%N.

(** [handleSuggestionClick], line 181: the longest prefix without a
    character of that class is removed, and the rest is trimmed. *)
Definition cleanQuery (suggestion : jsstring) : jsstring :=
  trim (dropWhile (fun c => negb (wordOrDevanagari c)) suggestion).

(** The [code]s of [LANGUAGES] in the header, the only values its
    buttons hand to [onLanguageChange]. *)
Definition languageCodes : list jsstring := [str "en"; str "hi"].

(** The application between two events: the state of [App], the text in
    the chat input, and the [handleSend] calls still awaiting
    [askQuestion], each with the language it captured. *)
Record System : Type := {
  app : App.State;
  draft : jsstring;
  pending : list jsstring
}.

Definition initial : System :=
  {| app := {| App.messages := []; App.isLoading := false;
               App.language := str "en"; App.error := None |};
     draft := [];
     pending := [] |}.

Inductive event : Type :=
| Input (ev : ChatInput.event)       (* an event of the chat input *)
| Suggestion (text : jsstring)       (* a click on a suggestion card *)
| Language (code : jsstring)         (* a click on a language button *)
| Settled (k : nat) (outcome : result value).
                                     (* the k-th pending call settles *)

(** [handleSend] up to its [await], once for each query. *)
Definition sendAll (queries : list jsstring) (sys : System) : System :=
  fold_left
    (fun sys q =>
       {| app := App.handleSend_begin q (app sys);
          draft := draft sys;
          pending := pending sys ++ [App.language (app sys)] |})
    queries sys.

Fixpoint removeNth {A : Type} (k : nat) (l : list A) : list A :=
  match l, k with
  | [], _ => []
  | _ :: t, O => t
  | x :: t, S k' => x :: removeNth k' t
  end.

(** One event; [None] when the interface does not offer it: the
    suggestion cards are rendered only while there is no message, the
    language buttons carry the two codes, and only a pending call can
    settle. *)
Definition step (sys : System) (ev : event) : option System :=
  match ev with
  | Input iev =>
      match ChatInput.step (App.isLoading (app sys)) (draft sys) iev with
      | Some (sent, draft') =>
          Some (sendAll sent {| app := app sys; draft := draft';
                                pending := pending sys |})
      | None => None
      end
  | Suggestion text =>
      match App.messages (app sys) with
      | [] => Some (sendAll [cleanQuery text] sys)
      | _ :: _ => None
      end
  | Language code =>
      if existsb (jseqb code) languageCodes then
        Some {| app := {| App.messages := App.messages (app sys);
                          App.isLoading := App.isLoading (app sys);
                          App.language := code;
                          App.error := App.error (app sys) |};
                draft := draft sys;
                pending := pending sys |}
      else None
  | Settled k outcome =>
      match nth_error (pending sys) k with
      | Some lang =>
          Some {| app := App.handleSend_settle lang outcome (app sys);
                  draft := draft sys;
                  pending := removeNth k (pending sys) |}
      | None => None
      end
  end.

Fixpoint run (events : list event) (sys : System) : option System :=
  match events with
  | [] => Some sys
  | ev :: rest =>
      match step sys ev with
      | Some sys' => run rest sys'
      | None => None
      end
  end.

(** A transcript of question-answer pairs, ending with an unanswered
    question exactly when [loading]. *)
Fixpoint alternates (loading : bool) (msgs : list App.message) : Prop :=
  match msgs with
  | [] => loading = false
  | [App.UserMessage _] => loading = true
  | App.UserMessage _ :: App.AssistantMessage _ :: rest => alternates loading rest
  | _ => False
  end.

End Session.
End Session.

(* ================================================================== *)
(** * Further predicates *)
(* ================================================================== *)

Section MorePredicates.
Context {host : Host}.

(** A text that is empty or begins with something other than white
    space. *)
Definition startsVisible (t : jsstring) : Prop :=
  match t with
  | [] => True
  | c :: _ => isWhiteSpace c = false
  end.

(** Pieces that alternate between a word without white space (when
    [word] holds) and a non-empty run of white space, the last piece
    being a word. *)
Fixpoint wordsAndSpaces (word : bool) (pieces : list jsstring) : Prop :=
  match pieces with
  | [] => word = false
  | p :: rest =>
      (if word then forallb (fun c => negb (isWhiteSpace c)) p = true
       else p <> [] /\ forallb isWhiteSpace p = true) /\
      wordsAndSpaces (negb word) rest
  end.

(** The part of the card has something to show: its field is truthy
    (for the steps, not empty); the actions bar always has. *)
Definition hasContent (data : value) (p : ChatMessage.part) : bool :=
  match p with
  | ChatMessage.Summary => truthy (GetOpt data (str "summary"))
  | ChatMessage.RelevantLaw => truthy (GetOpt data (str "relevant_law"))
  | ChatMessage.YourRights => truthy (GetOpt data (str "your_rights"))
  | ChatMessage.NextSteps => hasLength (GetOpt data (str "next_steps"))
  | ChatMessage.DisclaimerLine => truthy (GetOpt data (str "disclaimer"))
  | ChatMessage.Actions => true
  end.

(** What holds of the application between any two events: the language
    is one of the two codes; the transcript is made of question-answer
    pairs, with one more question exactly while loading; the calls
    awaiting an answer are one while loading and none otherwise; the
    text in the input respects [maxLength]. *)
Definition sessionInvariant (sys : Session.System) : Prop :=
  In (App.language (Session.app sys)) Session.languageCodes /\
  Session.alternates (App.isLoading (Session.app sys))
    (App.messages (Session.app sys)) /\
  List.length (Session.pending sys) =
    (if App.isLoading (Session.app sys) then 1 else 0) /\
  List.length (Session.draft sys) <= 2000.

(** [q] is [s] without the white space around it: [s] is [q] between
    two runs of white space, and [q] neither begins nor ends with white
    space. *)
Definition strippedOf (s q : jsstring) : Prop :=
  (exists lead trail,
     s = lead ++ q ++ trail /\
     forallb isWhiteSpace lead = true /\ forallb isWhiteSpace trail = true) /\
  startsVisible q /\ startsVisible (rev q).

(** The render succeeds and the disclaimer line is among the parts on
    the card. *)
Definition showsDisclaimer (rendered : result (list ChatMessage.part)) : Prop :=
  exists parts, rendered = Ok parts /\ In ChatMessage.DisclaimerLine parts.

End MorePredicates.

(* ================================================================== *)
(** * Properties *)
(* ================================================================== *)

Section Properties.
Context {host : Host}.

(** ** Strings *)

Lemma dropWhile_length (p : N -> bool) (s : jsstring) :
  List.length (dropWhile p s) <= List.length s.
Proof.
  induction s as [|c t IH]; simpl; [lia|].
  destruct (p c); simpl; lia.
Qed.

Lemma trim_length (s : jsstring) : List.length (trim s) <= List.length s.
Proof.
  unfold trim, trimEnd, trimStart.
  rewrite length_rev.
  etransitivity; [apply dropWhile_length|].
  rewrite length_rev. apply dropWhile_length.
Qed.

Lemma jseqb_refl (a : jsstring) : jseqb a a = true.
Proof.
  induction a as [|x a IH]; simpl; [reflexivity|].
  now rewrite N.eqb_refl, IH.
Qed.

Lemma jseqb_eq (a b : jsstring) : jseqb a b = true <-> a = b.
Proof.
  split; [|intros ->; apply jseqb_refl].
  revert b; induction a as [|x a IH]; intros [|y b]; simpl; try discriminate; auto.
  intros H; apply andb_true_iff in H as [Hxy Hab].
  apply N.eqb_eq in Hxy. f_equal; auto.
Qed.

Lemma startsWith_spec (p s : jsstring) :
  startsWith p s = true <-> exists t, s = p ++ t.
Proof.
  revert s; induction p as [|x p IH]; intros s; cbn [startsWith].
  - split; [intros _; exists s; reflexivity|reflexivity].
  - destruct s as [|y s].
    + split; [discriminate|intros [t Ht]; discriminate Ht].
    + rewrite andb_true_iff, N.eqb_eq, IH. split.
      * intros [-> [t ->]]. exists t; reflexivity.
      * intros [t [= -> ->]]. split; [reflexivity|exists t; reflexivity].
Qed.

Lemma includes_spec (needle s : jsstring) :
  includes needle s = true <-> exists a b, s = a ++ needle ++ b.
Proof.
  induction s as [|c t IH]; cbn [includes]; rewrite orb_true_iff, startsWith_spec.
  - split.
    + intros [[b Hb]|H]; [|discriminate]. exists [], b; exact Hb.
    + intros (a & b & H). left. exists b.
      destruct a; [exact H|discriminate H].
  - rewrite IH. split.
    + intros [[b Hb]|(a & b & ->)].
      * exists [], b; exact Hb.
      * exists (c :: a), b; reflexivity.
    + intros (a & b & H). destruct a as [|x a].
      * left. exists b; exact H.
      * right. injection H as -> ->. exists a, b; reflexivity.
Qed.

Lemma split_nonempty (sep : N) (s : jsstring) : split sep s <> [].
Proof.
  destruct s as [|c t]; cbn [split]; [discriminate|].
  destruct (N.eqb c sep); [discriminate|].
  destruct (split sep t); discriminate.
Qed.

Lemma join_cons_head (sep : jsstring) (c : N) (piece : jsstring)
    (rest : list jsstring) :
  join sep ((c :: piece) :: rest) = c :: join sep (piece :: rest).
Proof. destruct rest; reflexivity. Qed.

(** Joining the pieces of a split with the separator gives the string
    back. *)
Lemma join_split (sep : N) (s : jsstring) : join [sep] (split sep s) = s.
Proof.
  induction s as [|c t IH]; [reflexivity|]. cbn [split].
  pose proof (split_nonempty sep t) as Hne.
  destruct (split sep t) as [|piece rest]; [contradiction|].
  destruct (N.eqb c sep) eqn:Hc.
  - apply N.eqb_eq in Hc as ->.
    change (join [sep] ([] :: piece :: rest))
      with (sep :: join [sep] (piece :: rest)).
    rewrite IH. reflexivity.
  - rewrite join_cons_head, IH. reflexivity.
Qed.

(** A global removal leaves a text without any match untouched. *)
Lemma removeAll_no_match (matchLen : jsstring -> option nat) (s : jsstring) :
  (forall a b, s = a ++ b -> matchLen b = None) -> removeAll matchLen 0 s = s.
Proof.
  induction s as [|c t IH]; intros H; [reflexivity|]. cbn [removeAll].
  rewrite (H [] (c :: t) eq_refl). f_equal. apply IH.
  intros a b ->. apply (H (c :: a) b). reflexivity.
Qed.

(** ** The result monad *)

Lemma mapM_total {A B : Type} (f : A -> result B) (l : list A) :
  Forall (fun a => exists b, f a = Ok b) l -> exists bs, mapM f l = Ok bs.
Proof.
  induction 1 as [|a l [b Hb] _ [bs Hbs]]; simpl.
  - now exists [].
  - rewrite Hb; simpl. rewrite Hbs; simpl. now exists (b :: bs).
Qed.

(** ** Induction over values *)

Lemma value_nested_ind (P : value -> Prop) :
  P VUndefined -> P VNull -> (forall b, P (VBool b)) ->
  (forall n, P (VNum n)) -> (forall s, P (VStr s)) ->
  (forall items, Forall P items -> P (VArr items)) ->
  (forall props, Forall (fun kv => P (snd kv)) props -> P (VObj props)) ->
  forall v, P v.
Proof.
  intros HU HN HB HNum HS HA HO.
  fix IH 1.
  intros [ | | b | n | s | items | props ].
  - exact HU.
  - exact HN.
  - apply HB.
  - apply HNum.
  - apply HS.
  - apply HA. induction items as [|x items IHl]; constructor.
    + apply IH.
    + exact IHl.
  - apply HO. induction props as [|[k x] props IHl]; constructor.
    + apply IH.
    + exact IHl.
Qed.

(** ** [JSON.parse] yields proper values *)

Lemma setProp_keys (k : jsstring) (v : value) props x :
  In x (map fst (setProp k v props)) -> x = k \/ In x (map fst props).
Proof.
  induction props as [|[k' v'] rest IH]; cbn [setProp].
  - intros [H|[]]; auto.
  - destruct (jseqb k k') eqn:Hk; cbn [map fst In].
    + intros [H|H]; auto.
    + intros [H|H]; auto. destruct (IH H); auto.
Qed.

Lemma setProp_NoDup (k : jsstring) (v : value) props :
  NoDup (map fst props) -> NoDup (map fst (setProp k v props)).
Proof.
  induction props as [|[k' v'] rest IH]; cbn [setProp]; intros Hnd.
  - repeat constructor. intros [].
  - inversion Hnd as [|? ? Hnotin Hrest]; subst.
    destruct (jseqb k k') eqn:Hk; cbn [map fst].
    + apply jseqb_eq in Hk as ->. exact Hnd.
    + constructor; [|apply IH, Hrest].
      intros Hin. apply setProp_keys in Hin as [->|Hin]; [|contradiction].
      rewrite jseqb_refl in Hk. discriminate Hk.
Qed.

Lemma setProp_Forall (P : value -> Prop) (k : jsstring) (v : value) props :
  P v -> Forall (fun kv => P (snd kv)) props ->
  Forall (fun kv => P (snd kv)) (setProp k v props).
Proof.
  intros Hv. induction 1 as [|[k' v'] rest Hx Hrest IH]; cbn [setProp].
  - repeat constructor. exact Hv.
  - destruct (jseqb k k'); constructor; assumption.
Qed.

Lemma deliver_proper (v : value) (stack : list frame) st' :
  properJSON v -> Forall properFrame stack ->
  deliver v stack = Some st' -> properState st'.
Proof.
  intros Hv Hstack. unfold deliver.
  destruct stack as [|[acc|props [k|]] rest]; intros [= <-]; split; cbn; auto;
    inversion Hstack as [|? ? Hf Hrest]; subst; constructor; auto.
  - cbn. constructor; assumption.
  - destruct Hf as [Hnd Hall]. split.
    + apply setProp_NoDup, Hnd.
    + apply setProp_Forall; assumption.
Qed.

Lemma parseValueStart_proper (tok : token) (stack : list frame) st' :
  Forall properFrame stack ->
  parseValueStart tok stack = Some st' -> properState st'.
Proof.
  intros Hstack. destruct tok; cbn [parseValueStart]; try discriminate;
    try (apply deliver_proper; [constructor|exact Hstack]).
  - intros [= <-]. split; cbn; [constructor; [|exact Hstack]|exact I].
    split; constructor.
  - intros [= <-]. split; cbn; [constructor; [|exact Hstack]|exact I].
    constructor.
Qed.

Lemma parseKey_proper (tok : token) (stack : list frame) st' :
  Forall properFrame stack ->
  parseKey tok stack = Some st' -> properState st'.
Proof.
  intros Hstack. destruct tok; cbn [parseKey]; try discriminate.
  destruct stack as [|[acc|props [k|]] rest]; try discriminate.
  intros [= <-]. inversion Hstack; subst. split; cbn; [|exact I].
  constructor; assumption.
Qed.

Lemma parseStep_proper (st : list frame * mode) (tok : token) st' :
  properState st -> parseStep st tok = Some st' -> properState st'.
Proof.
  destruct st as [stack m]. intros [Hstack _]. cbn [fst] in Hstack.
  destruct m; cbn [parseStep].
  - apply parseValueStart_proper, Hstack.
  - destruct tok; try (apply parseValueStart_proper, Hstack).
    destruct stack as [|[acc|props pending] rest];
      try (apply (parseValueStart_proper TRBracket), Hstack).
    inversion Hstack; subst.
    apply deliver_proper; [repeat constructor|assumption].
  - destruct tok; try (apply parseKey_proper, Hstack).
    destruct stack as [|[acc|props pending] rest];
      try (apply (parseKey_proper TRBrace), Hstack).
    inversion Hstack; subst.
    apply deliver_proper; [repeat constructor|assumption].
  - apply parseKey_proper, Hstack.
  - destruct tok; try discriminate. intros [= <-]. split; [exact Hstack|exact I].
  - destruct tok; try discriminate;
      destruct stack as [|[acc|props [k|]] rest]; try discriminate;
      try (intros [= <-]; split; [exact Hstack|exact I]);
      inversion Hstack as [|? ? Hf Hrest]; subst.
    + destruct Hf as [Hnd Hall].
      apply deliver_proper; [constructor; assumption|exact Hrest].
    + apply deliver_proper; [|exact Hrest].
      constructor. apply Forall_rev, Hf.
  - discriminate.
Qed.

Lemma parseTokens_proper (toks : list token) :
  forall st v, properState st -> parseTokens st toks = Some v -> properJSON v.
Proof.
  induction toks as [|tok rest IH]; intros st v Hst; cbn [parseTokens].
  - destruct st as [[|f stack] m]; try discriminate.
    destruct m; try discriminate. intros [= <-]. apply Hst.
  - destruct (parseStep st tok) as [st'|] eqn:Hstep; [|discriminate].
    apply IH. eapply parseStep_proper; eassumption.
Qed.

(** Whatever [JSON.parse] returns is a proper JSON value. *)
Lemma JSON_parse_proper (text : jsstring) (v : value) :
  JSON_parse text = Ok v -> properJSON v.
Proof.
  unfold JSON_parse. destruct (lex LStart text) as [toks|]; [|discriminate].
  destruct (parseTokens ([], MValue) toks) as [v'|] eqn:Hp; [|discriminate].
  intros [= <-]. eapply parseTokens_proper; [|exact Hp].
  split; cbn; [constructor|exact I].
Qed.

(** ** [JSON.parse] on sample texts *)

Example JSON_parse_nested :
  JSON_parse (str "{" ++ quoted "a" ++ str ": [true, null, {}, [], " ++
              quoted "x\u0041\n" ++ str "], " ++ quoted "a" ++ str ":false, " ++
              quoted "b" ++ str " : -1.5e+3 }") =
  Ok (VObj [ (str "a", VBool false);
             (str "b", VNum (Number_ofLiteral (str "-1.5e+3"))) ]).
Proof. vm_compute. reflexivity. Qed.

Example JSON_parse_rejects :
  Forall (fun text => exists e, JSON_parse text = Throw e)
    [ []; str "[1,]"; str "{" ++ quoted "a" ++ str ":1,}"; str "01"; str "1.";
      str "-"; str "{a:1}"; str "[1 2]"; str "nul"; str "true false";
      dquote :: 10%N :: [dquote]; quoted "\x"; str "[[]"; str "}";
      65279%N :: str "{}" ].
Proof. repeat constructor; eexists; vm_compute; reflexivity. Qed.

(** ** String conversion *)

Lemma ToString_VArr (items : list value) :
  ToString (VArr items) = Array_join (str ",") items.
Proof.
  unfold Array_join. cbn [ToString]. f_equal.
  induction items as [|e t IH]; [reflexivity|].
  cbn [mapM]. rewrite <- IH. destruct e; reflexivity.
Qed.

Lemma coercible_VArr (items : list value) :
  coercible (VArr items) = true <-> Forall (fun x => coercible x = true) items.
Proof.
  cbn [coercible]. rewrite forallb_forall, Forall_forall. reflexivity.
Qed.

Lemma coercible_VObj (props : list (jsstring * value)) :
  coercible (VObj props) = true <->
  hasOwn (str "toString") props = false /\
  Forall (fun kv => coercible (snd kv) = true) props.
Proof.
  cbn [coercible]. rewrite andb_true_iff, negb_true_iff, forallb_forall, Forall_forall.
  reflexivity.
Qed.

Lemma ToString_coercible (v : value) :
  coercible v = true -> exists s, ToString v = Ok s.
Proof.
  induction v as [ | | b | n | s | items IH | props IH ] using value_nested_ind;
    intros Hc.
  - eexists; reflexivity.
  - eexists; reflexivity.
  - destruct b; eexists; reflexivity.
  - eexists; reflexivity.
  - eexists; reflexivity.
  - rewrite ToString_VArr. unfold Array_join.
    apply coercible_VArr in Hc.
    destruct (mapM_total elementText (l := items)) as [parts Hparts].
    + rewrite Forall_forall in *. intros x Hx.
      destruct x; try (eexists; reflexivity); apply (IH _ Hx); apply (Hc _ Hx).
    + rewrite Hparts. eexists; reflexivity.
  - apply coercible_VObj in Hc as [Hown _].
    cbn [ToString]. rewrite Hown. eexists; reflexivity.
Qed.

Lemma Array_join_coercible (sep : jsstring) (items : list value) :
  Forall (fun x => coercible x = true) items ->
  exists s, Array_join sep items = Ok s.
Proof.
  intros Hc. unfold Array_join.
  destruct (mapM_total elementText (l := items)) as [parts Hparts].
  - eapply Forall_impl; [|exact Hc]. intros x Hx.
    destruct x; try (eexists; reflexivity); apply ToString_coercible; exact Hx.
  - rewrite Hparts. eexists; reflexivity.
Qed.

Lemma entryText_coercible (kv : jsstring * value) :
  coercible (snd kv) = true -> exists s, entryText kv = Ok s.
Proof.
  destruct kv as [k v]; cbn [snd]; intros Hc. unfold entryText.
  assert (exists t, match v with
                    | VArr items => Array_join (str ", ") items
                    | _ => ToString v
                    end = Ok t) as [t Ht].
  { destruct v; try (apply ToString_coercible; exact Hc).
    apply Array_join_coercible, coercible_VArr, Hc. }
  rewrite Ht. eexists; reflexivity.
Qed.

(** ** Property enumeration *)

Lemma insertIndexed_In (n : N) (kv : jsstring * value) sorted x :
  In x (insertIndexed n kv sorted) -> x = (n, kv) \/ In x sorted.
Proof.
  induction sorted as [|[m kv'] rest IH]; cbn [insertIndexed].
  - intros [H|[]]; auto.
  - destruct (n <? m)%N.
    + intros [H|H]; auto.
    + intros [H|H]; [right; left; exact H|].
      destruct (IH H) as [H'|H']; [left|right; right]; exact H'.
Qed.

Lemma indexedProps_In (props : list (jsstring * value)) x :
  In x (indexedProps props) -> In (snd x) props.
Proof.
  induction props as [|[k v] rest IH]; cbn [indexedProps]; [intros []|].
  destruct (arrayIndex k).
  - intros H. apply insertIndexed_In in H as [->|H]; [left; reflexivity|right; auto].
  - intros H; right; auto.
Qed.

Lemma Object_entries_VObj_In (props : list (jsstring * value)) kv :
  In kv (Object_entries (VObj props)) -> In kv props.
Proof.
  cbn [Object_entries]. rewrite in_app_iff, in_map_iff.
  intros [[x [<- Hx]]|H].
  - apply indexedProps_In, Hx.
  - unfold namedProps in H. apply filter_In in H as [H _]. exact H.
Qed.

Lemma arrayEntries_coercible (i : N) (items : list value) :
  Forall (fun x => coercible x = true) items ->
  Forall (fun kv => coercible (snd kv) = true) (arrayEntries i items).
Proof.
  intros H; revert i; induction H as [|x l Hx _ IH]; intros i; cbn [arrayEntries];
    constructor; auto.
Qed.

Lemma Object_entries_coercible (x : value) :
  coercible x = true ->
  Forall (fun kv => coercible (snd kv) = true) (Object_entries x).
Proof.
  destruct x; intros Hc; try (cbn; constructor).
  - apply arrayEntries_coercible, coercible_VArr, Hc.
  - apply coercible_VObj in Hc as [_ Hc].
    rewrite Forall_forall in *. intros kv Hkv.
    apply Hc, Object_entries_VObj_In, Hkv.
Qed.

(** ** [flattenToString] *)

Lemma entriesText_coercible (x : value) :
  coercible x = true -> exists s, entriesText x = Ok s.
Proof.
  intros Hc. unfold entriesText.
  destruct (mapM_total entryText (l := Object_entries x)) as [parts Hparts].
  - eapply Forall_impl; [|apply Object_entries_coercible, Hc].
    intros kv; apply entryText_coercible.
  - rewrite Hparts. eexists; reflexivity.
Qed.

Lemma itemText_coercible (item : value) :
  coercible item = true -> exists s, itemText item = Ok s.
Proof.
  intros Hc. destruct item; cbn [itemText];
    try (apply ToString_coercible; exact Hc);
    try (apply entriesText_coercible; exact Hc).
  eexists; reflexivity.
Qed.

(** [flattenToString] returns a string on every value free of own
    [toString] properties. *)
Lemma flattenToString_coercible (v : value) :
  coercible v = true -> exists s, flattenToString v = Ok s.
Proof.
  intros Hc. destruct v; cbn [flattenToString];
    try (eexists; reflexivity);
    try (apply ToString_coercible; exact Hc).
  - destruct (mapM_total itemText (l := items)) as [parts Hparts].
    + eapply Forall_impl; [|apply coercible_VArr, Hc].
      intros x; apply itemText_coercible.
    + rewrite Hparts. eexists; reflexivity.
  - apply entriesText_coercible, Hc.
Qed.

(** [flattenToString] is the identity on strings. *)
Lemma flattenToString_string (s : jsstring) : flattenToString (VStr s) = Ok s.
Proof. reflexivity. Qed.

(** [null] and [undefined] flatten to the empty string. *)
Lemma flattenToString_nullish :
  flattenToString VNull = Ok [] /\ flattenToString VUndefined = Ok [].
Proof. split; reflexivity. Qed.

(** Flattening what [flattenToString] returned changes nothing. *)
Lemma flattenToString_idempotent (v : value) :
  (s <- flattenToString v ;; flattenToString (VStr s)) = flattenToString v.
Proof. destruct (flattenToString v); reflexivity. Qed.

(** ** Property reads *)

Lemma Get_VObj (props : list (jsstring * value)) (k : jsstring) :
  Get (VObj props) k = Ok (GetOpt (VObj props) k).
Proof. cbn. destruct (lookup k props); reflexivity. Qed.

Lemma lookup_In (k : jsstring) (props : list (jsstring * value)) (x : value) :
  lookup k props = Some x -> exists k', In (k', x) props.
Proof.
  induction props as [|[k' v] rest IH]; cbn [lookup]; [discriminate|].
  destruct (jseqb k k').
  - intros [= ->]. exists k'; left; reflexivity.
  - intros H. destruct (IH H) as [k'' Hin]. exists k''; right; exact Hin.
Qed.

Lemma GetOpt_coercible (props : list (jsstring * value)) (k : jsstring) :
  coercible (VObj props) = true -> coercible (GetOpt (VObj props) k) = true.
Proof.
  intros Hc. apply coercible_VObj in Hc as [_ Hc]. cbn [GetOpt].
  destruct (lookup k props) as [x|] eqn:Hl; [|reflexivity].
  apply lookup_In in Hl as [k' Hin].
  rewrite Forall_forall in Hc. exact (Hc _ Hin).
Qed.

(** ** The pieces of [normalizeData] *)

(** On a string, [normalizeData] is decided by one parse, that of the
    fence-stripped and trimmed text. *)
Lemma normalizeData_string (raw : jsstring) :
  raw <> [] ->
  normalizeData (VStr raw) =
  match JSON_parse (trim (stripFences raw)) with
  | Throw _ => Ok (plainResponse raw defaultDisclaimer)
  | Ok parsed =>
      if isPlainObject parsed
      then data' <- unwrapSummary parsed ;; buildResponse data'
      else Ok (plainResponse raw [])
  end.
Proof.
  intros Hne. unfold normalizeData.
  destruct raw as [|c raw]; [contradiction|].
  cbn [truthy negb parseRaw].
  destruct (JSON_parse (trim (stripFences (c :: raw)))) as [parsed|e]; [|reflexivity].
  destruct parsed as [ | | [] | n | s | items | props ]; try reflexivity.
  - cbn [truthy typeofObject isArray isPlainObject].
    destruct (Number_isZero n); reflexivity.
  - destruct s; reflexivity.
Qed.

(** What lines 57-63 leave in [data]: the object itself, or the object
    encoded in its [summary]. *)
Lemma unwrapSummary_VObj (props : list (jsstring * value)) :
  unwrapSummary (VObj props) = Ok (VObj props) \/
  exists s inner,
    lookup (str "summary") props = Some (VStr s) /\
    JSON_parse (stripFences s) = Ok (VObj inner) /\
    truthy (GetOpt (VObj inner) (str "summary")) = true /\
    unwrapSummary (VObj props) = Ok (VObj inner).
Proof.
  unfold unwrapSummary. rewrite Get_VObj. cbn [bind GetOpt].
  destruct (lookup (str "summary") props) as [v|] eqn:Hl; [|left; reflexivity].
  destruct (truthy v) eqn:Ht; [|left; reflexivity].
  destruct v as [ | | b | n | s | items | o ]; try (left; reflexivity).
  destruct (startsWith (str "{") (trim s) && includes (quoted "summary") s);
    [|left; reflexivity].
  destruct (JSON_parse (stripFences s)) as [inner|e] eqn:Hp; [|left; reflexivity].
  destruct (truthy (GetOpt inner (str "summary"))) eqn:Hi; [|left; reflexivity].
  destruct inner as [ | | b | n | s' | items | o ]; try discriminate Hi.
  right. exists s, o. auto.
Qed.

Lemma unwrapSummary_VObj_object (props : list (jsstring * value)) :
  exists props', unwrapSummary (VObj props) = Ok (VObj props').
Proof.
  destruct (unwrapSummary_VObj props) as [H|(s & inner & _ & _ & _ & H)];
    eauto.
Qed.

(** The [next_steps] field of the result, by the shape of the input
    field. *)
Lemma nextSteps_coercible (v : value) :
  coercible v = true ->
  exists steps : list jsstring,
    nextSteps v = Ok (VArr (map VStr steps)) /\
    match v with
    | VArr items => mapM flattenToString items = Ok steps
    | VStr s => steps = filter nonBlank (split 10 s)
    | _ => steps = []
    end.
Proof.
  intros Hc. destruct v; try (exists []; split; reflexivity).
  - eexists; split; reflexivity.
  - destruct (mapM_total flattenToString (l := items)) as [steps Hsteps].
    + eapply Forall_impl; [|apply coercible_VArr, Hc].
      intros x; apply flattenToString_coercible.
    + exists steps. cbn [nextSteps]. rewrite Hsteps. split; reflexivity.
Qed.

(** The final object literal, for an object free of own [toString]
    properties: every text field is the flattening of the input field,
    [next_steps] is an array of strings, and [disclaimer] is not empty. *)
Lemma buildResponse_coercible (props : list (jsstring * value)) :
  coercible (VObj props) = true ->
  exists summary relevant_law your_rights disclaimer steps sources,
    buildResponse (VObj props) =
      Ok (fullResponse summary relevant_law your_rights (VArr (map VStr steps))
            disclaimer sources) /\
    flattenToString (GetOpt (VObj props) (str "summary")) = Ok summary /\
    flattenToString (GetOpt (VObj props) (str "relevant_law")) = Ok relevant_law /\
    flattenToString (GetOpt (VObj props) (str "your_rights")) = Ok your_rights /\
    nextSteps (GetOpt (VObj props) (str "next_steps")) = Ok (VArr (map VStr steps)) /\
    disclaimer <> [] /\
    (forall d, flattenToString (GetOpt (VObj props) (str "disclaimer")) = Ok d ->
               d <> [] -> disclaimer = d).
Proof.
  intros Hc. unfold buildResponse. rewrite !Get_VObj. cbn [bind].
  destruct (flattenToString_coercible _ (GetOpt_coercible props (str "summary") Hc))
    as [summary ->].
  destruct (flattenToString_coercible _ (GetOpt_coercible props (str "relevant_law") Hc))
    as [relevant_law ->].
  destruct (flattenToString_coercible _ (GetOpt_coercible props (str "your_rights") Hc))
    as [your_rights ->].
  destruct (nextSteps_coercible _ (GetOpt_coercible props (str "next_steps") Hc))
    as [steps [-> _]].
  destruct (flattenToString_coercible _ (GetOpt_coercible props (str "disclaimer") Hc))
    as [d ->].
  cbn [bind].
  eexists summary, relevant_law, your_rights, _, steps, _.
  split; [reflexivity|].
  repeat (split; [reflexivity|]).
  split.
  - destruct d; discriminate.
  - intros d' [= <-] Hd. destruct d; [contradiction|reflexivity].
Qed.

Lemma buildResponse_Ok (data r : value) :
  buildResponse data = Ok r ->
  exists summary relevant_law your_rights next_steps disclaimer sources,
    r = fullResponse summary relevant_law your_rights next_steps disclaimer sources.
Proof.
  unfold buildResponse, bind.
  repeat match goal with
         | |- match ?m with Ok _ => _ | Throw _ => _ end = _ -> _ =>
             destruct m; [|discriminate]
         end.
  intros [= <-]. repeat eexists.
Qed.

Lemma defaultDisclaimer_nonempty : defaultDisclaimer <> [].
Proof. discriminate. Qed.

(** ** [normalizeData] and [flattenToString] on parsed text *)

(** C1 (amended).  The empty string normalises to the empty object.  For
    every non-empty string whose fence-stripped, trimmed text either
    fails to parse or parses to a JSON object (and the object the
    response is built from has no own [toString] property anywhere),
    [normalizeData] returns a response object whose [disclaimer] is a
    non-empty string. *)
Theorem normalizeData_disclaimer_populated (raw : jsstring) :
  raw <> [] ->
  ((exists e, JSON_parse (trim (stripFences raw)) = Throw e) \/
   (exists props data',
      JSON_parse (trim (stripFences raw)) = Ok (VObj props) /\
      unwrapSummary (VObj props) = Ok data' /\
      coercible data' = true)) ->
  normalizeData (VStr []) = Ok (VObj []) /\
  hasDisclaimer (normalizeData (VStr raw)).
Proof.
  intros Hne Hparse. split; [reflexivity|].
  rewrite (normalizeData_string Hne).
  destruct Hparse as [[e ->]|(props & data' & -> & Hun & Hc)].
  - exists (plainResponse raw defaultDisclaimer), defaultDisclaimer.
    repeat split. apply defaultDisclaimer_nonempty.
  - cbn [isPlainObject]. rewrite Hun. cbn [bind].
    destruct (unwrapSummary_VObj_object props) as [props' Hun'].
    rewrite Hun in Hun'. injection Hun' as ->.
    destruct (buildResponse_coercible props' Hc)
      as (summary & rl & yr & d & steps & sources & -> & _ & _ & _ & _ & Hd & _).
    eexists _, d. repeat split. exact Hd.
Qed.

(** C2 (amended).  On a non-empty string [normalizeData] makes a single
    parse attempt, on the text with the fence markers stripped and then
    trimmed: it returns the fallback (the raw text as [summary], empty
    [relevant_law] and [your_rights], empty [next_steps], the default
    [disclaimer]) exactly when that parse throws, and when the parse
    yields an object the response is built from it. *)
Theorem normalizeData_fallback_iff_parse_throws (raw : jsstring) :
  raw <> [] ->
  (normalizeData (VStr raw) = Ok (plainResponse raw defaultDisclaimer) <->
   exists e, JSON_parse (trim (stripFences raw)) = Throw e) /\
  (forall props, JSON_parse (trim (stripFences raw)) = Ok (VObj props) ->
     normalizeData (VStr raw) =
     (data' <- unwrapSummary (VObj props) ;; buildResponse data')).
Proof.
  intros Hne. rewrite (normalizeData_string Hne). split.
  - split.
    + destruct (JSON_parse (trim (stripFences raw))) as [parsed|e]; [|eauto].
      destruct (isPlainObject parsed).
      * destruct (unwrapSummary parsed) as [data'|e]; [|discriminate].
        cbn [bind]. intros H. apply buildResponse_Ok in H.
        destruct H as (a & b & c & d & e & f & H). discriminate H.
      * intros H. discriminate H.
    + intros [e ->]. reflexivity.
  - intros props ->. reflexivity.
Qed.

(** C3.  The fenced object whose only member is [summary] = [x]
    normalises to [summary] [x], empty [relevant_law] and [your_rights],
    an empty [next_steps] array and the default [disclaimer] (together
    with an empty [sources] array). *)
Theorem normalizeData_fenced_summary :
  normalizeData (VStr fencedSummary) =
  Ok (fullResponse (str "x") [] [] (VArr []) defaultDisclaimer (VArr [])).
Proof. vm_compute. reflexivity. Qed.

(** C4 (amended).  When the parsed [summary] is a string that starts
    (after trimming) with an opening brace, contains the quoted word
    [summary], parses (after fence stripping) to a value whose own
    [summary] is truthy, the response is built from that inner value
    and the outer fields are dropped; it is returned whenever the inner
    value has no own [toString] property anywhere. *)
Theorem normalizeData_unwraps_double_encoded
    (raw s : jsstring) (props : list (jsstring * value)) (inner : value) :
  raw <> [] ->
  JSON_parse (trim (stripFences raw)) = Ok (VObj props) ->
  lookup (str "summary") props = Some (VStr s) ->
  startsWith (str "{") (trim s) = true ->
  includes (quoted "summary") s = true ->
  JSON_parse (stripFences s) = Ok inner ->
  truthy (GetOpt inner (str "summary")) = true ->
  normalizeData (VStr raw) = buildResponse inner /\
  (coercible inner = true -> exists r, buildResponse inner = Ok r).
Proof.
  intros Hne Hp Hl Hs Hi Hin Ht.
  rewrite (normalizeData_string Hne), Hp. cbn [isPlainObject].
  assert (unwrapSummary (VObj props) = Ok inner) as ->.
  { unfold unwrapSummary. rewrite Get_VObj. cbn [bind GetOpt]. rewrite Hl.
    assert (truthy (VStr s) = true) as ->.
    { destruct s; [discriminate Hs|reflexivity]. }
    rewrite Hs, Hi, Hin, Ht. reflexivity. }
  split; [reflexivity|].
  intros Hc. destruct inner; try discriminate Ht.
  destruct (buildResponse_coercible props0 Hc)
    as (a & b & c & d & e & f & -> & _). eauto.
Qed.

(** C5 (amended).  For every non-empty string (where, if its text parses
    to an object, the object the response is built from has no own
    [toString] property anywhere), [normalizeData] returns an object
    whose [summary], [relevant_law], [your_rights] and [disclaimer] are
    strings and whose [next_steps] is an array of strings.  After a parse
    to an object the three text fields are the flattenings of the
    object's fields, and [next_steps] follows the shape of the object's
    field: an array is flattened element by element, a string is split
    at line feeds and its blank pieces are dropped, any other shape gives
    the empty array. *)
Theorem normalizeData_coerces_shapes (raw : jsstring) :
  raw <> [] ->
  (forall props data',
     JSON_parse (trim (stripFences raw)) = Ok (VObj props) ->
     unwrapSummary (VObj props) = Ok data' -> coercible data' = true) ->
  exists r,
    normalizeData (VStr raw) = Ok r /\
    isString (GetOpt r (str "summary")) /\
    isString (GetOpt r (str "relevant_law")) /\
    isString (GetOpt r (str "your_rights")) /\
    isString (GetOpt r (str "disclaimer")) /\
    isStringArray (GetOpt r (str "next_steps")) /\
    (forall props data',
       JSON_parse (trim (stripFences raw)) = Ok (VObj props) ->
       unwrapSummary (VObj props) = Ok data' ->
       fieldFlattened data' r (str "summary") /\
       fieldFlattened data' r (str "relevant_law") /\
       fieldFlattened data' r (str "your_rights") /\
       match GetOpt data' (str "next_steps") with
       | VArr items =>
           exists steps, mapM flattenToString items = Ok steps /\
                         GetOpt r (str "next_steps") = VArr (map VStr steps)
       | VStr s =>
           GetOpt r (str "next_steps") =
           VArr (map VStr (filter nonBlank (split 10 s)))
       | _ => GetOpt r (str "next_steps") = VArr []
       end).
Proof.
  intros Hne Hc. rewrite (normalizeData_string Hne).
  destruct (JSON_parse (trim (stripFences raw))) as [parsed|e].
  - destruct parsed as [ | | b | n | s | items | props ];
      try (eexists; split; [reflexivity|];
           do 4 (split; [eexists; reflexivity|]);
           split; [exists []; reflexivity|]; intros ? ? [=]).
    cbn [isPlainObject].
    destruct (unwrapSummary_VObj_object props) as [props' Hun].
    specialize (Hc props (VObj props') eq_refl Hun).
    rewrite Hun. cbn [bind].
    destruct (buildResponse_coercible props' Hc)
      as (summary & rl & yr & d & steps & sources & -> & H1 & H2 & H3 & Hsteps & _ & _).
    eexists; split; [reflexivity|].
    do 4 (split; [eexists; reflexivity|]).
    split; [exists steps; reflexivity|].
    intros props1 data1 [= <-] Hun1. rewrite Hun in Hun1. injection Hun1 as <-.
    split; [exists summary; split; [exact H1|reflexivity]|].
    split; [exists rl; split; [exact H2|reflexivity]|].
    split; [exists yr; split; [exact H3|reflexivity]|].
    change (GetOpt (fullResponse summary rl yr (VArr (map VStr steps)) d sources)
              (str "next_steps")) with (VArr (map VStr steps)).
    destruct (nextSteps_coercible _ (GetOpt_coercible props' (str "next_steps") Hc))
      as (steps' & Hn & Hshape).
    rewrite Hn in Hsteps. injection Hsteps as Hsteps.
    destruct (GetOpt (VObj props') (str "next_steps"));
      try (rewrite <- Hsteps, Hshape; reflexivity).
    exists steps'. split; [exact Hshape|rewrite <- Hsteps; reflexivity].
  - eexists; split; [reflexivity|].
    do 4 (split; [eexists; reflexivity|]).
    split; [exists []; reflexivity|]. intros ? ? [=].
Qed.

(** C8 (the failing input).  On the object read from the JSON text
    whose member [a] is an object with a member [toString],
    [flattenToString] throws a TypeError instead of returning a
    string. *)
Theorem flattenToString_throws_on_own_toString :
  (v <- JSON_parse ownToString ;; flattenToString v) =
  Throw (TypeError msgCannotConvert).
Proof. vm_compute. reflexivity. Qed.

(** ** The API client *)

(** C6 (amended).  For a response with a non-ok status [askQuestion]
    always throws.  The message of the Error is [Unknown error] when
    the body is not JSON, the body's [detail] when that is a non-empty
    string, and [Server error: ] followed by the status code when
    reading [detail] gives a falsy value.  For an ok status the result
    is that of parsing the body as JSON. *)
Theorem askQuestion_non_ok_raises
    (env : option jsstring) (fetch : Client.Request -> result Client.Response)
    (query : jsstring) (language : option jsstring) (response : Client.Response) :
  fetch (Client.askRequest env query
           (match language with Some l => l | None => str "en" end)) = Ok response ->
  (Client.Response_ok response = false ->
     (exists e, Client.askQuestion env fetch query language = Throw e) /\
     ((exists e, JSON_parse (Client.body response) = Throw e) ->
        Client.askQuestion env fetch query language =
        Throw (Error (str "Unknown error"))) /\
     (forall v s,
        JSON_parse (Client.body response) = Ok v ->
        Get v (str "detail") = Ok (VStr s) -> s <> [] ->
        Client.askQuestion env fetch query language = Throw (Error s)) /\
     (forall v d,
        JSON_parse (Client.body response) = Ok v ->
        Get v (str "detail") = Ok d -> truthy d = false ->
        Client.askQuestion env fetch query language =
        Throw (Error (str "Server error: " ++ decimal (Client.status response))))) /\
  (Client.Response_ok response = true ->
     Client.askQuestion env fetch query language =
     JSON_parse (Client.body response)).
Proof.
  intros Hfetch. unfold Client.askQuestion. rewrite Hfetch. cbn [bind].
  unfold Client.Response_json. split; intros ->; cbn [negb]; [|reflexivity].
  repeat split.
  - destruct (JSON_parse (Client.body response)) as [v|e]; cbn [catch bind].
    + destruct (Get v (str "detail")) as [d|e]; cbn [bind]; [|eauto].
      destruct (truthy d); [|cbn [bind]; eauto].
      destruct (ToString d); cbn [bind]; eauto.
    + eexists; reflexivity.
  - intros [e ->]. reflexivity.
  - intros v s -> Hg Hs. cbn [catch bind]. rewrite Hg. cbn [bind].
    destruct s; [contradiction|reflexivity].
  - intros v d -> Hg Hd. cbn [catch bind]. rewrite Hg. cbn [bind].
    rewrite Hd. reflexivity.
Qed.

(** ** The keep-alive handler *)

(** C7 (amended).  Every invocation of the handler sends exactly one
    response and throws nothing.  When the backend answers and its body
    parses, the response has status 200 and the payload
    [{status: "ok", timestamp, backend}]; when the fetch rejects or the
    body does not parse, it has status 500 and the payload
    [{status: "error", timestamp, message}]. *)
Theorem handler_always_responds
    (env : option jsstring) (fetch : Client.Request -> result Client.Response)
    (now : jsstring) (res : KeepAlive.ServerResponse) :
  exists code payload,
    KeepAlive.handler env fetch now res =
      Ok {| KeepAlive.statusCode := code;
            KeepAlive.sent := KeepAlive.sent res ++ [(code, payload)] |} /\
    ((code = 200%N /\
      exists response data,
        fetch (KeepAlive.healthRequest env) = Ok response /\
        JSON_parse (Client.body response) = Ok data /\
        payload = KeepAlive.okPayload now data) \/
     (code = 500%N /\
      exists e,
        (response <- fetch (KeepAlive.healthRequest env) ;;
         Client.Response_json response) = Throw e /\
        payload = KeepAlive.errorPayload now (exn_message e))).
Proof.
  unfold KeepAlive.handler, Client.Response_json.
  destruct (fetch (KeepAlive.healthRequest env)) as [response|e]; cbn [bind catch].
  - destruct (JSON_parse (Client.body response)) as [data|e] eqn:Hp; cbn [bind catch].
    + eexists _, _. split; [reflexivity|]. left. split; [reflexivity|].
      exists response, data. auto.
    + eexists _, _. split; [reflexivity|]. right. split; [reflexivity|].
      exists e. auto.
  - eexists _, _. split; [reflexivity|]. right. split; [reflexivity|].
    exists e. auto.
Qed.

(** ** The chat input *)

Lemma handleSubmit_cases (isLoading : bool) (query : jsstring) :
  ChatInput.handleSubmit isLoading query =
  if nonBlank query && negb isLoading then ([trim query], []) else ([], query).
Proof.
  unfold ChatInput.handleSubmit, nonBlank.
  destruct (trim query), isLoading; reflexivity.
Qed.

Lemma handleSubmit_sendable (isLoading : bool) (query : jsstring) :
  List.length query <= 2000 ->
  Forall sendable (fst (ChatInput.handleSubmit isLoading query)) /\
  List.length (snd (ChatInput.handleSubmit isLoading query)) <= 2000.
Proof.
  intros Hlen. rewrite handleSubmit_cases.
  destruct (nonBlank query && negb isLoading) eqn:Hb; cbn [fst snd].
  - split; [|cbn; lia]. constructor; [|constructor]. split.
    + apply andb_true_iff in Hb as [Hb _]. unfold nonBlank in Hb.
      destruct (trim query); [discriminate|discriminate].
    + pose proof (trim_length query). lia.
  - split; [constructor|exact Hlen].
Qed.

Lemma run_sendable (events : list (ChatInput.event * bool)) :
  forall query sent final,
    List.length query <= 2000 ->
    ChatInput.run events query = Some (sent, final) ->
    Forall sendable sent /\ List.length final <= 2000.
Proof.
  induction events as [|[ev isLoading] rest IH]; intros query sent final Hlen Hrun.
  - injection Hrun as <- <-. split; [constructor|exact Hlen].
  - cbn [ChatInput.run] in Hrun.
    destruct (ChatInput.step isLoading query ev) as [[sentNow query']|] eqn:Hstep;
      [|discriminate].
    destruct (ChatInput.run rest query') as [[sentLater final']|] eqn:Hrest;
      [|discriminate].
    injection Hrun as <- <-.
    assert (Forall sendable sentNow /\ List.length query' <= 2000) as [HsN Hq'].
    { destruct ev as [v| |key shiftKey]; cbn [ChatInput.step] in Hstep.
      - destruct (ChatInput.userCanEnter (ChatInput.render query isLoading) v) eqn:Hu;
          [|discriminate].
        injection Hstep as <- <-. split; [constructor|].
        unfold ChatInput.userCanEnter in Hu. apply andb_true_iff in Hu as [_ Hu].
        apply Nat.leb_le in Hu. exact Hu.
      - injection Hstep as Hstep.
        pose proof (handleSubmit_sendable isLoading query Hlen) as Hs.
        rewrite Hstep in Hs. exact Hs.
      - unfold ChatInput.handleKeyDown in Hstep.
        destruct (jseqb key (str "Enter") && negb shiftKey).
        + injection Hstep as Hstep.
          pose proof (handleSubmit_sendable isLoading query Hlen) as Hs.
          rewrite Hstep in Hs. exact Hs.
        + injection Hstep as <- <-. split; [constructor|exact Hlen]. }
    destruct (IH _ _ _ Hq' Hrest) as [HsL Hf].
    split; [apply Forall_app; split; assumption|exact Hf].
Qed.

(** ** The application state *)

Lemma normalizeData_object (props : list (jsstring * value)) :
  normalizeData (VObj props) =
  (data' <- unwrapSummary (VObj props) ;; buildResponse data').
Proof. reflexivity. Qed.

Lemma built_hasDisclaimer (props : list (jsstring * value)) (data' : value) :
  unwrapSummary (VObj props) = Ok data' -> coercible data' = true ->
  hasDisclaimer (normalizeData (VObj props)).
Proof.
  intros Hun Hc. rewrite normalizeData_object, Hun. cbn [bind].
  destruct (unwrapSummary_VObj_object props) as [props' Hun'].
  rewrite Hun in Hun'. injection Hun' as ->.
  destruct (buildResponse_coercible props' Hc)
    as (summary & rl & yr & d & steps & sources & -> & _ & _ & _ & _ & Hd & _).
  eexists _, d. repeat split. exact Hd.
Qed.

End Properties.

(* ================================================================== *)
(** * Further properties *)
(* ================================================================== *)

Section MoreProperties.
Context {host : Host}.
Variable msgNotFunction : jsstring.

(** ** Trimming *)

Lemma dropWhile_head (p : N -> bool) (s : jsstring) :
  match dropWhile p s with
  | [] => True
  | c :: _ => p c = false
  end.
Proof.
  induction s as [|c t IH]; cbn [dropWhile]; [exact I|].
  destruct (p c) eqn:Hc; [exact IH|exact Hc].
Qed.

Lemma dropWhile_fixed (p : N -> bool) (s : jsstring) :
  match s with [] => True | c :: _ => p c = false end -> dropWhile p s = s.
Proof. destruct s as [|c t]; cbn [dropWhile]; [reflexivity|]. now intros ->. Qed.

Lemma dropWhile_suffix (p : N -> bool) (s : jsstring) :
  exists pre, s = pre ++ dropWhile p s /\ forallb p pre = true.
Proof.
  induction s as [|c t (pre & IH & Hpre)]; cbn [dropWhile].
  - exists []; split; reflexivity.
  - destruct (p c) eqn:Hc.
    + exists (c :: pre). split; [cbn; f_equal; exact IH|cbn; now rewrite Hc].
    + exists []; split; reflexivity.
Qed.

Lemma dropWhile_app_stop (p : N -> bool) (a b : jsstring) (c : N) :
  p c = false -> dropWhile p (a ++ c :: b) = dropWhile p a ++ c :: b.
Proof.
  intros Hc. induction a as [|x a IH]; cbn [dropWhile app].
  - now rewrite Hc.
  - destruct (p x); [exact IH|reflexivity].
Qed.

(** [trimEnd] gives a prefix, [trimStart] a suffix. *)
Lemma trimEnd_prefix (s : jsstring) :
  exists ws, s = trimEnd s ++ ws /\ forallb isWhiteSpace ws = true.
Proof.
  unfold trimEnd.
  destruct (dropWhile_suffix isWhiteSpace (rev s)) as (pre & Hs & Hpre).
  exists (rev pre). split.
  - rewrite <- rev_app_distr, <- Hs, rev_involutive. reflexivity.
  - rewrite forallb_forall in *. intros x Hx. apply Hpre, in_rev, Hx.
Qed.

Lemma trimEnd_fixed (s : jsstring) :
  match rev s with [] => True | c :: _ => isWhiteSpace c = false end ->
  trimEnd s = s.
Proof.
  intros H. unfold trimEnd. rewrite (dropWhile_fixed _ _ H).
  apply rev_involutive.
Qed.

Lemma trimEnd_last (s : jsstring) :
  match rev (trimEnd s) with [] => True | c :: _ => isWhiteSpace c = false end.
Proof. unfold trimEnd. rewrite rev_involutive. apply dropWhile_head. Qed.

Lemma trimEnd_app_stop (a b : jsstring) (c : N) :
  isWhiteSpace c = false -> trimEnd (a ++ c :: b) = a ++ c :: trimEnd b.
Proof.
  intros Hc. unfold trimEnd.
  rewrite rev_app_distr. cbn [rev]. rewrite <- app_assoc. cbn [app].
  rewrite (dropWhile_app_stop _ _ _ _ Hc).
  rewrite rev_app_distr. cbn [rev]. rewrite rev_involutive.
  rewrite <- app_assoc. reflexivity.
Qed.

Lemma trim_head (s : jsstring) :
  match trim s with [] => True | c :: _ => isWhiteSpace c = false end.
Proof.
  unfold trim, trimStart.
  pose proof (dropWhile_head isWhiteSpace s) as Hh.
  destruct (trimEnd_prefix (dropWhile isWhiteSpace s)) as (ws & Hs & _).
  destruct (trimEnd (dropWhile isWhiteSpace s)) as [|c t]; [exact I|].
  rewrite Hs in Hh. exact Hh.
Qed.

(** A text whose first and last code units are not white space is its
    own trimming. *)
Lemma trim_fixed (s : jsstring) :
  match s with [] => True | c :: _ => isWhiteSpace c = false end ->
  match rev s with [] => True | c :: _ => isWhiteSpace c = false end ->
  trim s = s.
Proof.
  intros Hh Hl. unfold trim, trimStart.
  rewrite (dropWhile_fixed _ _ Hh). apply trimEnd_fixed, Hl.
Qed.

Lemma trim_idempotent (s : jsstring) : trim (trim s) = trim s.
Proof.
  apply trim_fixed; [apply trim_head|]. unfold trim. apply trimEnd_last.
Qed.

(** [trim] removes the white space around a text and nothing else. *)
Lemma trim_strippedOf (s : jsstring) : strippedOf s (trim s).
Proof.
  unfold strippedOf, startsVisible. split; [|split].
  - unfold trim, trimStart.
    destruct (dropWhile_suffix isWhiteSpace s) as (lead & Hs & Hlead).
    destruct (trimEnd_prefix (dropWhile isWhiteSpace s)) as (trail & Ht & Htrail).
    exists lead, trail. split; [|split; assumption].
    rewrite <- Ht. exact Hs.
  - apply trim_head.
  - unfold trim. apply trimEnd_last.
Qed.

(** Only a text of white space trims to the empty text. *)
Lemma trim_blank (s : jsstring) :
  trim s = [] -> forallb isWhiteSpace s = true.
Proof.
  intros H. destruct (trim_strippedOf s) as ((lead & trail & Hs & Hl & Ht) & _).
  rewrite H in Hs. rewrite Hs. cbn [app]. rewrite forallb_app, Hl, Ht. reflexivity.
Qed.

(** ** Every result of [normalizeData] *)

Lemma mapM_flatten_strings (l : list jsstring) :
  mapM flattenToString (map VStr l) = Ok l.
Proof.
  induction l as [|a l IH]; cbn [map mapM]; [reflexivity|].
  cbn [flattenToString bind]. rewrite IH. reflexivity.
Qed.

Lemma nextSteps_Ok (v ns : value) :
  nextSteps v = Ok ns -> exists steps : list jsstring, ns = VArr (map VStr steps).
Proof.
  destruct v; cbn [nextSteps]; try (intros [= <-]; exists []; reflexivity).
  - intros [= <-]. eexists; reflexivity.
  - destruct (mapM flattenToString items) as [steps|e]; cbn [bind]; [|discriminate].
    intros [= <-]. exists steps; reflexivity.
Qed.

Ltac bind_inversion H :=
  repeat match type of H with
         | bind ?m _ = Ok _ =>
             let E := fresh "E" in
             destruct m eqn:E; cbn [bind] in H; [|discriminate H]
         end.

Lemma buildResponse_shape (data r : value) :
  buildResponse data = Ok r ->
  exists summary relevant_law your_rights steps disclaimer sources,
    r = fullResponse summary relevant_law your_rights (VArr (map VStr steps))
          disclaimer sources /\
    disclaimer <> [] /\ truthy sources = true.
Proof.
  unfold buildResponse. intros H. bind_inversion H. injection H as <-.
  match goal with E : nextSteps _ = Ok _ |- _ =>
    apply nextSteps_Ok in E as [steps ->] end.
  eexists _, _, _, steps, _, _. split; [reflexivity|]. split.
  - match goal with |- match ?d with _ => _ end <> _ => destruct d; discriminate end.
  - match goal with |- truthy (if truthy ?v then _ else _) = _ =>
      destruct (truthy v) eqn:Hv; [exact Hv|reflexivity] end.
Qed.

Lemma parseRaw_early (raw early : value) :
  parseRaw raw = inl early -> exists s, early = plainResponse s defaultDisclaimer.
Proof.
  destruct raw; cbn [parseRaw]; try discriminate.
  destruct (JSON_parse (trim (stripFences s))) as [parsed|e].
  - destruct (truthy parsed && typeofObject parsed && negb (isArray parsed));
      discriminate.
  - intros [= <-]. exists s; reflexivity.
Qed.

Lemma normalizeData_Ok_cases (raw r : value) :
  normalizeData raw = Ok r ->
  r = VObj [] \/
  (exists s d, r = plainResponse s d) \/
  (exists summary relevant_law your_rights steps disclaimer sources,
     r = fullResponse summary relevant_law your_rights
           (VArr (map VStr steps)) disclaimer sources /\
     disclaimer <> [] /\ truthy sources = true).
Proof.
  unfold normalizeData. destruct (negb (truthy raw)); [intros [= <-]; auto|].
  destruct (parseRaw raw) as [early|data] eqn:Hp.
  - intros [= <-]. apply parseRaw_early in Hp as [s ->]. eauto.
  - destruct (negb (typeofObject data) || isArray data); intros H.
    + bind_inversion H. injection H as <-. eauto.
    + bind_inversion H. right; right. apply (buildResponse_shape _ H).
Qed.

(** X1.  Whatever [normalizeData] returns, for any input value, has one
    of three shapes: the empty object (exactly for a falsy input), the
    five-field object of the early returns, or the six-field object of
    the final literal, whose text fields are strings, whose [next_steps]
    is an array of strings, whose [disclaimer] is not empty and whose
    [sources] is truthy. *)
Theorem normalizeData_result_shapes (raw r : value) :
  normalizeData raw = Ok r ->
  (truthy raw = false /\ r = VObj []) \/
  (truthy raw = true /\
   ((exists s d, r = plainResponse s d) \/
    (exists summary relevant_law your_rights steps disclaimer sources,
       r = fullResponse summary relevant_law your_rights
             (VArr (map VStr steps)) disclaimer sources /\
       disclaimer <> [] /\ truthy sources = true))).
Proof.
  unfold normalizeData. destruct (truthy raw); cbn [negb].
  - intros H. right. split; [reflexivity|].
    destruct (parseRaw raw) as [early|data] eqn:Hp.
    + injection H as <-. apply parseRaw_early in Hp as [s ->]. left. eauto.
    + destruct (negb (typeofObject data) || isArray data).
      * bind_inversion H. injection H as <-. left. eauto.
      * bind_inversion H. right. apply (buildResponse_shape _ H).
  - intros [= <-]. left. split; reflexivity.
Qed.

(** ** [formatForCopy] *)

Lemma startsVisible_app (a b : jsstring) :
  startsVisible a -> startsVisible b -> startsVisible (a ++ b).
Proof. destruct a; cbn; auto. Qed.

Lemma copySection_string (label : string) (s : jsstring) :
  startsVisible (str label) ->
  exists t, copySection label (VStr s) = Ok t /\ startsVisible t.
Proof.
  intros Hl. unfold copySection. destruct s as [|c s]; cbn [truthy ToString bind].
  - exists []. split; [reflexivity|exact I].
  - eexists. split; [reflexivity|].
    apply startsVisible_app; [exact Hl|reflexivity].
Qed.

Lemma copyStepLines_strings (steps : list jsstring) :
  forall i, exists t, copyStepLines i (map VStr steps) = Ok t.
Proof.
  induction steps as [|s steps IH]; intros i; cbn [map copyStepLines].
  - eexists; reflexivity.
  - destruct (IH (i + 1)%N) as [t ->]. cbn [ToString bind]. eexists; reflexivity.
Qed.

Lemma copySteps_strings (steps : list jsstring) :
  exists t, copySteps msgNotFunction (VArr (map VStr steps)) = Ok t /\
            startsVisible t.
Proof.
  unfold copySteps. destruct steps as [|s steps]; cbn [map hasLength].
  - exists []. split; [reflexivity|exact I].
  - destruct (copyStepLines_strings (s :: steps) 0) as [t Ht].
    cbn [map] in Ht. rewrite Ht. cbn [bind].
    eexists. split; reflexivity.
Qed.

(** The copy text of an object whose five fields have the normalised
    types. *)
Lemma formatForCopy_fields (data : value) (s l y d : jsstring)
    (steps : list jsstring) :
  data <> VNull -> data <> VUndefined ->
  GetOpt data (str "summary") = VStr s ->
  GetOpt data (str "relevant_law") = VStr l ->
  GetOpt data (str "your_rights") = VStr y ->
  GetOpt data (str "next_steps") = VArr (map VStr steps) ->
  GetOpt data (str "disclaimer") = VStr d ->
  exists body,
    startsVisible body /\
    formatForCopy msgNotFunction data =
      Ok (trim (body ++ match d with
                        | [] => []
                        | _ :: _ => [warningSign; 32%N] ++ d
                        end)).
Proof.
  intros Hn Hu H1 H2 H3 H4 H5.
  destruct data as [ | | b | n | s0 | items | props ];
    try contradiction; try discriminate H1.
  unfold formatForCopy. rewrite !Get_VObj, H1, H2, H3, H4, H5. cbn [bind].
  destruct (copySection_string "Summary" s) as (t1 & -> & V1); [reflexivity|].
  destruct (copySection_string "Relevant Law" l) as (t2 & -> & V2); [reflexivity|].
  destruct (copySection_string "Your Rights" y) as (t3 & -> & V3); [reflexivity|].
  destruct (copySteps_strings steps) as (t4 & -> & V4).
  cbn [bind]. exists (t1 ++ t2 ++ t3 ++ t4). split.
  - repeat apply startsVisible_app; assumption.
  - unfold copyDisclaimer. destruct d; cbn [truthy ToString bind];
      rewrite <- !app_assoc; reflexivity.
Qed.

Lemma formatForCopy_normalized_Ok (raw r : value) :
  normalizeData raw = Ok r -> exists t, formatForCopy msgNotFunction r = Ok t.
Proof.
  intros H. apply normalizeData_Ok_cases in H
    as [->|[(s & d & ->)|(s & l & y & steps & d & src & -> & _)]].
  - exists []. reflexivity.
  - destruct (formatForCopy_fields (data := plainResponse s d) (s := s) (l := [])
                (y := []) (d := d) []) as (body & _ & ->);
      try reflexivity; try discriminate.
    eexists. reflexivity.
  - destruct (formatForCopy_fields
                (data := fullResponse s l y (VArr (map VStr steps)) d src)
                (s := s) (l := l) (y := y) (d := d) steps) as (body & _ & ->);
      try reflexivity; try discriminate.
    eexists. reflexivity.
Qed.

(** X2.  [formatForCopy] never throws on what [normalizeData] returned,
    whatever the input was, and the text it gives has no white space at
    either end. *)
Theorem formatForCopy_of_normalized (raw r : value) :
  normalizeData raw = Ok r ->
  exists t, formatForCopy msgNotFunction r = Ok t /\ trim t = t.
Proof.
  intros H. apply normalizeData_Ok_cases in H
    as [->|[(s & d & ->)|(s & l & y & steps & d & src & -> & _)]].
  - exists []. split; reflexivity.
  - destruct (formatForCopy_fields (data := plainResponse s d) (s := s) (l := [])
                (y := []) (d := d) []) as (body & _ & ->);
      try reflexivity; try discriminate.
    eexists. split; [reflexivity|apply trim_idempotent].
  - destruct (formatForCopy_fields
                (data := fullResponse s l y (VArr (map VStr steps)) d src)
                (s := s) (l := l) (y := y) (d := d) steps) as (body & _ & ->);
      try reflexivity; try discriminate.
    eexists. split; [reflexivity|apply trim_idempotent].
Qed.

(** X3.  When the normalised response has a non-empty [disclaimer], the
    copy text ends with the warning sign followed by a space and the
    disclaimer (trimmed on the right); everything before it is kept as
    built. *)
Theorem formatForCopy_ends_with_disclaimer (raw r : value) (d : jsstring) :
  normalizeData raw = Ok r ->
  GetOpt r (str "disclaimer") = VStr d -> d <> [] ->
  exists body,
    formatForCopy msgNotFunction r =
      Ok (body ++ warningSign :: trimEnd (32%N :: d)).
Proof.
  intros H Hd Hne.
  assert (exists body, startsVisible body /\
            formatForCopy msgNotFunction r =
              Ok (trim (body ++ [warningSign; 32%N] ++ d))) as (body & Hv & ->).
  { apply normalizeData_Ok_cases in H
      as [->|[(s & d' & ->)|(s & l & y & steps & d' & src & -> & _)]].
    - discriminate Hd.
    - injection Hd as ->.
      destruct (formatForCopy_fields (data := plainResponse s d) (s := s) (l := [])
                  (y := []) (d := d) []) as (body & Hv & ->);
        try reflexivity; try discriminate.
      exists body. destruct d; [contradiction|]. split; [exact Hv|reflexivity].
    - injection Hd as ->.
      destruct (formatForCopy_fields
                  (data := fullResponse s l y (VArr (map VStr steps)) d src)
                  (s := s) (l := l) (y := y) (d := d) steps) as (body & Hv & ->);
        try reflexivity; try discriminate.
      exists body. destruct d; [contradiction|]. split; [exact Hv|reflexivity]. }
  exists body. f_equal. unfold trim, trimStart.
  rewrite dropWhile_fixed.
  - cbn [app]. apply trimEnd_app_stop. reflexivity.
  - change (startsVisible (body ++ [warningSign; 32%N] ++ d)).
    apply startsVisible_app; [exact Hv|reflexivity].
Qed.

(** ** The typewriter *)

Lemma splitWords_nonempty (s : jsstring) : Typewriter.splitWords s <> [].
Proof.
  destruct s as [|c t]; cbn [Typewriter.splitWords]; [discriminate|].
  destruct (Typewriter.splitWords t) as [|w rest]; [discriminate|].
  destruct (isWhiteSpace c); [|discriminate].
  destruct w; [destruct rest|]; discriminate.
Qed.

Lemma concat_splitWords (s : jsstring) :
  List.concat (Typewriter.splitWords s) = s.
Proof.
  induction s as [|c t IH]; [reflexivity|]. cbn [Typewriter.splitWords].
  pose proof (splitWords_nonempty t) as Hne.
  destruct (Typewriter.splitWords t) as [|w rest]; [contradiction|].
  destruct (isWhiteSpace c).
  - destruct w as [|x w]; [destruct rest as [|run rest']|];
      cbn [List.concat app] in *; rewrite <- IH; reflexivity.
  - cbn [List.concat app] in *. rewrite <- IH. reflexivity.
Qed.

(** X4.  Splitting a text into words and white-space runs loses
    nothing: the pieces, put together again, are the text.  The pieces
    alternate: a word without any white space (possibly empty, at the
    two ends), then a non-empty run of white space, then a word, and so
    on, ending with a word. *)
Theorem splitWords_pieces (s : jsstring) :
  List.concat (Typewriter.splitWords s) = s /\
  wordsAndSpaces true (Typewriter.splitWords s).
Proof.
  split; [apply concat_splitWords|].
  induction s as [|c t IH]; [cbn; auto|]. cbn [Typewriter.splitWords].
  pose proof (splitWords_nonempty t) as Hne.
  destruct (Typewriter.splitWords t) as [|w rest]; [contradiction|].
  destruct IH as [Hw Hrest]. destruct (isWhiteSpace c) eqn:Hc.
  - destruct w as [|x w]; [destruct rest as [|run rest']|].
    + cbn. rewrite Hc. repeat split; auto. discriminate.
    + destruct Hrest as [[Hrun Hall] Hrest']. cbn [wordsAndSpaces negb].
      repeat split; auto; [discriminate|]. cbn [forallb]. rewrite Hc. exact Hall.
    + cbn [wordsAndSpaces negb]. repeat split; auto; [discriminate|].
      cbn. rewrite Hc. reflexivity.
  - cbn [wordsAndSpaces negb] in *. split; [|exact Hrest].
    cbn [forallb]. rewrite Hc. exact Hw.
Qed.

Lemma tick_words (st : Typewriter.State) :
  Typewriter.words (Typewriter.tick st) = Typewriter.words st.
Proof.
  unfold Typewriter.tick.
  repeat match goal with |- context [if ?b then _ else _] => destruct b end;
    reflexivity.
Qed.

Lemma tick_index (st : Typewriter.State) :
  Typewriter.wordIndex st <= List.length (Typewriter.words st) ->
  Typewriter.wordIndex st <= Typewriter.wordIndex (Typewriter.tick st) /\
  Typewriter.wordIndex (Typewriter.tick st) <= List.length (Typewriter.words st).
Proof.
  intros Hle. unfold Typewriter.tick.
  destruct (negb (Typewriter.isTyping st)
            || (List.length (Typewriter.words st) <=? Typewriter.wordIndex st)).
  - destruct ((List.length (Typewriter.words st) <=? Typewriter.wordIndex st)
              && (0 <? List.length (Typewriter.words st)));
      cbn [Typewriter.wordIndex]; lia.
  - cbn [Typewriter.wordIndex].
    match goal with
    | |- context [Typewriter.blank ?w] => destruct (Typewriter.blank w)
    end; lia.
Qed.

Lemma ticks_words (n : nat) (st : Typewriter.State) :
  Typewriter.words (Typewriter.ticks n st) = Typewriter.words st.
Proof.
  revert st; induction n as [|n IH]; intros st; cbn [Typewriter.ticks];
    [reflexivity|]. rewrite IH. apply tick_words.
Qed.

Lemma ticks_index (n : nat) (st : Typewriter.State) :
  Typewriter.wordIndex st <= List.length (Typewriter.words st) ->
  Typewriter.wordIndex st <= Typewriter.wordIndex (Typewriter.ticks n st) /\
  Typewriter.wordIndex (Typewriter.ticks n st) <= List.length (Typewriter.words st).
Proof.
  revert st; induction n as [|n IH]; intros st Hle; cbn [Typewriter.ticks];
    [lia|].
  destruct (tick_index st Hle) as [H1 H2].
  rewrite <- (tick_words st) in H2.
  destruct (IH _ H2) as [H3 H4]. rewrite tick_words in H4. lia.
Qed.

Lemma ticks_add (n m : nat) (st : Typewriter.State) :
  Typewriter.ticks (n + m) st = Typewriter.ticks m (Typewriter.ticks n st).
Proof.
  revert st; induction n as [|n IH]; intros st; cbn [Typewriter.ticks Nat.add];
    [reflexivity|apply IH].
Qed.

Lemma start_index (s : jsstring) (animate : bool) :
  Typewriter.wordIndex (Typewriter.start s animate) <=
  List.length (Typewriter.words (Typewriter.start s animate)).
Proof.
  unfold Typewriter.start. destruct s; [cbn; lia|].
  destruct animate; cbn [Typewriter.wordIndex Typewriter.words]; lia.
Qed.

Lemma start_words (s : jsstring) (animate : bool) :
  List.concat (Typewriter.words (Typewriter.start s animate)) = s.
Proof.
  unfold Typewriter.start. destruct s as [|c s]; [reflexivity|].
  destruct animate; cbn [Typewriter.words]; apply concat_splitWords.
Qed.

Lemma concat_firstn_le (l : list jsstring) (i j : nat) :
  i <= j -> exists rest, List.concat (firstn j l) = List.concat (firstn i l) ++ rest.
Proof.
  revert i j. induction l as [|x l IH]; intros i j Hij.
  - exists []. destruct i, j; reflexivity.
  - destruct i as [|i]; [eexists; reflexivity|].
    destruct j as [|j]; [lia|].
    destruct (IH i j) as [rest Hrest]; [lia|].
    exists rest. cbn [firstn List.concat]. rewrite Hrest, app_assoc. reflexivity.
Qed.

Lemma concat_firstn_prefix (l : list jsstring) (i : nat) :
  exists rest, List.concat l = List.concat (firstn i l) ++ rest.
Proof.
  exists (List.concat (skipn i l)).
  rewrite <- concat_app, firstn_skipn. reflexivity.
Qed.

(** X5.  Whatever the number of timer events, the typewriter shows a
    prefix of the full text, and what it has shown it never takes
    back: the text shown later extends the text shown earlier. *)
Theorem typewriter_shows_growing_prefixes
    (fullText : jsstring) (shouldAnimate : bool) (n m : nat) :
  let st := Typewriter.start fullText shouldAnimate in
  (exists rest,
     fullText = Typewriter.displayedText (Typewriter.ticks n st) ++ rest) /\
  (exists more,
     Typewriter.displayedText (Typewriter.ticks (n + m) st) =
     Typewriter.displayedText (Typewriter.ticks n st) ++ more).
Proof.
  intros st. unfold Typewriter.displayedText. split.
  - rewrite ticks_words.
    destruct (concat_firstn_prefix (Typewriter.words st)
                (Typewriter.wordIndex (Typewriter.ticks n st))) as [rest Hrest].
    exists rest. rewrite <- Hrest. symmetry. apply start_words.
  - rewrite ticks_add, !ticks_words. apply concat_firstn_le.
    apply ticks_index. rewrite ticks_words.
    apply ticks_index, start_index.
Qed.

Lemma tick_done (ws : list jsstring) :
  let done := {| Typewriter.words := ws;
                 Typewriter.wordIndex := List.length ws;
                 Typewriter.isTyping := false |} in
  Typewriter.tick done = done.
Proof.
  cbn. unfold Typewriter.tick. cbn [Typewriter.isTyping negb orb].
  cbn [Typewriter.words Typewriter.wordIndex].
  rewrite Nat.leb_refl. destruct (List.length ws); reflexivity.
Qed.

Lemma ticks_done (ws : list jsstring) (n : nat) :
  let done := {| Typewriter.words := ws;
                 Typewriter.wordIndex := List.length ws;
                 Typewriter.isTyping := false |} in
  Typewriter.ticks n done = done.
Proof.
  cbn. induction n as [|n IH]; cbn [Typewriter.ticks]; [reflexivity|].
  rewrite (tick_done ws). exact IH.
Qed.

Lemma typing_finishes (k : nat) :
  forall ws i n,
    ws <> [] -> i <= List.length ws -> List.length ws - i < k -> k <= n ->
    Typewriter.ticks n {| Typewriter.words := ws; Typewriter.wordIndex := i;
                          Typewriter.isTyping := true |} =
    {| Typewriter.words := ws; Typewriter.wordIndex := List.length ws;
       Typewriter.isTyping := false |}.
Proof.
  induction k as [|k IH]; intros ws i n Hne Hi Hk Hn; [lia|].
  destruct n as [|n]; [lia|]. cbn [Typewriter.ticks].
  unfold Typewriter.tick at 1.
  cbn [Typewriter.isTyping Typewriter.words Typewriter.wordIndex negb orb].
  destruct (List.length ws <=? i) eqn:Hend.
  - apply Nat.leb_le in Hend. assert (i = List.length ws) as -> by lia.
    assert ((0 <? List.length ws) = true) as ->.
    { apply Nat.ltb_lt. destruct ws; [contradiction|cbn; lia]. }
    cbn [andb]. apply (ticks_done ws).
  - apply Nat.leb_gt in Hend.
    apply IH; try assumption;
      try match goal with
          | |- context [Typewriter.blank ?w] => destruct (Typewriter.blank w)
          end; lia.
Qed.

(** X6.  A text that is not animated is shown whole at once and no
    timer event changes that.  An animated, non-empty text is shown
    whole, and the typing is over, after at most one timer event more
    than it has pieces; from then on nothing changes. *)
Theorem typewriter_completes (fullText : jsstring) :
  (forall n,
     Typewriter.ticks n (Typewriter.start fullText false) =
       Typewriter.start fullText false /\
     Typewriter.displayedText (Typewriter.start fullText false) = fullText /\
     Typewriter.isTyping (Typewriter.start fullText false) = false) /\
  (fullText <> [] ->
   forall n, List.length (Typewriter.splitWords fullText) + 1 <= n ->
     Typewriter.isTyping (Typewriter.ticks n (Typewriter.start fullText true)) = false /\
     Typewriter.displayedText (Typewriter.ticks n (Typewriter.start fullText true)) =
       fullText).
Proof.
  split.
  - intros n. unfold Typewriter.start. destruct fullText as [|c s].
    + repeat split. induction n as [|n IH]; [reflexivity|exact IH].
    + split; [apply (ticks_done (Typewriter.splitWords (c :: s)))|].
      split; [|reflexivity].
      unfold Typewriter.displayedText. cbn [Typewriter.words Typewriter.wordIndex].
      rewrite firstn_all. apply concat_splitWords.
  - intros Hne n Hn. unfold Typewriter.start.
    destruct fullText as [|c s]; [contradiction|].
    rewrite (typing_finishes (k := List.length (Typewriter.splitWords (c :: s)) + 1));
      try lia; [|apply splitWords_nonempty].
    split; [reflexivity|].
    unfold Typewriter.displayedText. cbn [Typewriter.words Typewriter.wordIndex].
    rewrite firstn_all. apply concat_splitWords.
Qed.

(** ** The message card *)

Lemma visible_all (data : value) (st : ChatMessage.State) :
  5 <= ChatMessage.revealedSections st ->
  forall p, In p (ChatMessage.visible data st) <-> hasContent data p = true.
Proof.
  intros Hn p. unfold ChatMessage.visible.
  assert ((1 <=? ChatMessage.revealedSections st) = true) as -> by (apply Nat.leb_le; lia).
  assert ((2 <=? ChatMessage.revealedSections st) = true) as -> by (apply Nat.leb_le; lia).
  assert ((3 <=? ChatMessage.revealedSections st) = true) as -> by (apply Nat.leb_le; lia).
  assert ((4 <=? ChatMessage.revealedSections st) = true) as -> by (apply Nat.leb_le; lia).
  assert ((5 <=? ChatMessage.revealedSections st) = true) as -> by (apply Nat.leb_le; lia).
  cbn [andb]. rewrite !in_app_iff.
  destruct (truthy (GetOpt data (str "summary"))) eqn:E1,
           (truthy (GetOpt data (str "relevant_law"))) eqn:E2,
           (truthy (GetOpt data (str "your_rights"))) eqn:E3,
           (hasLength (GetOpt data (str "next_steps"))) eqn:E4,
           (truthy (GetOpt data (str "disclaimer"))) eqn:E5;
    destruct p; cbn [hasContent In]; rewrite ?E1, ?E2, ?E3, ?E4, ?E5;
    intuition (discriminate || congruence).
Qed.

Lemma cm_ticks_add (isLatest : bool) (n m : nat) (st : ChatMessage.State) :
  ChatMessage.ticks isLatest (n + m) st =
  ChatMessage.ticks isLatest m (ChatMessage.ticks isLatest n st).
Proof.
  revert st; induction n as [|n IH]; intros st; cbn [ChatMessage.ticks Nat.add];
    [reflexivity|apply IH].
Qed.

Lemma cm_typing (k : nat) :
  forall ws i r,
    ws <> [] -> i <= List.length ws -> List.length ws - i < k ->
    exists j, j <= k /\
      ChatMessage.ticks true j
        {| ChatMessage.revealedSections := r;
           ChatMessage.summary :=
             Some {| Typewriter.words := ws; Typewriter.wordIndex := i;
                     Typewriter.isTyping := true |} |} =
      {| ChatMessage.revealedSections := S r;
         ChatMessage.summary :=
           Some {| Typewriter.words := ws;
                   Typewriter.wordIndex := List.length ws;
                   Typewriter.isTyping := false |} |}.
Proof.
  induction k as [|k IH]; intros ws i r Hne Hi Hk; [lia|].
  destruct (List.length ws <=? i) eqn:Hend.
  - exists 1. split; [lia|]. cbn [ChatMessage.ticks].
    unfold ChatMessage.tick, Typewriter.tick.
    cbn [ChatMessage.summary Typewriter.isTyping Typewriter.words
         Typewriter.wordIndex negb orb ChatMessage.revealedSections].
    rewrite Hend. apply Nat.leb_le in Hend. assert (i = List.length ws) as -> by lia.
    assert ((0 <? List.length ws) = true) as ->.
    { apply Nat.ltb_lt. destruct ws; [contradiction|cbn; lia]. }
    reflexivity.
  - pose proof Hend as Hlt. apply Nat.leb_gt in Hlt.
    set (i' := Nat.min (i + (if Typewriter.blank (nth i ws []) then 3 else 1))
                 (List.length ws)).
    destruct (IH ws i' r Hne) as (j & Hj & Hrun).
    + subst i'. lia.
    + subst i'. destruct (Typewriter.blank (nth i ws [])); lia.
    + exists (S j). split; [lia|]. cbn [ChatMessage.ticks]. rewrite <- Hrun.
      f_equal. unfold ChatMessage.tick, Typewriter.tick.
      cbn [ChatMessage.summary Typewriter.isTyping Typewriter.words
           Typewriter.wordIndex negb orb ChatMessage.revealedSections].
      rewrite Hend. reflexivity.
Qed.

Lemma cm_stagger (n : nat) :
  forall r tw,
    Typewriter.isTyping tw = false -> 1 <= r <= 5 ->
    ChatMessage.ticks true n
      {| ChatMessage.revealedSections := r; ChatMessage.summary := Some tw |} =
    {| ChatMessage.revealedSections := Nat.min (r + n) 5;
       ChatMessage.summary := Some tw |}.
Proof.
  induction n as [|n IH]; intros r tw Htw Hr; cbn [ChatMessage.ticks].
  - f_equal. lia.
  - unfold ChatMessage.tick. cbn [ChatMessage.summary]. rewrite Htw.
    unfold ChatMessage.stagger. cbn [ChatMessage.revealedSections ChatMessage.summary andb].
    destruct (r =? 0) eqn:H0; [apply Nat.eqb_eq in H0; lia|]. cbn [negb andb].
    destruct (r <? 5) eqn:H5.
    + apply Nat.ltb_lt in H5. rewrite IH; [f_equal; lia|exact Htw|lia].
    + apply Nat.ltb_ge in H5. rewrite IH; [f_equal; lia|exact Htw|lia].
Qed.

Lemma cm_revealed_five (data : value) (s : jsstring) (n : nat) :
  GetOpt data (str "summary") = VStr s -> s <> [] ->
  List.length (Typewriter.splitWords s) + 5 <= n ->
  ChatMessage.ticks true n (ChatMessage.init true data) =
  {| ChatMessage.revealedSections := 5;
     ChatMessage.summary :=
       Some {| Typewriter.words := Typewriter.splitWords s;
               Typewriter.wordIndex := List.length (Typewriter.splitWords s);
               Typewriter.isTyping := false |} |}.
Proof.
  intros Hs Hne Hn.
  unfold ChatMessage.init, ChatMessage.summaryText. rewrite Hs.
  destruct s as [|c s]; [contradiction|]. cbn [truthy Typewriter.start].
  destruct (cm_typing (k := List.length (Typewriter.splitWords (c :: s)) + 1)
              (ws := Typewriter.splitWords (c :: s)) (i := 0) 0)
    as (j & Hj & Hrun); [apply splitWords_nonempty|lia|lia|].
  replace n with (j + (n - j)) by lia.
  rewrite cm_ticks_add, Hrun, cm_stagger; [f_equal; lia|reflexivity|lia].
Qed.

(** X7.  On the latest message with a non-empty summary everything is
    revealed in the end: after at most as many timer events as the
    summary has pieces, plus five, all five stages are revealed, the
    summary is typed out in full, and every part that has content is on
    the card. *)
Theorem latest_message_reveals_all (data : value) (s : jsstring) (n : nat) :
  GetOpt data (str "summary") = VStr s -> s <> [] ->
  List.length (Typewriter.splitWords s) + 5 <= n ->
  let st := ChatMessage.ticks true n (ChatMessage.init true data) in
  ChatMessage.revealedSections st = 5 /\
  option_map Typewriter.displayedText (ChatMessage.summary st) = Some s /\
  option_map Typewriter.isTyping (ChatMessage.summary st) = Some false /\
  (forall p, In p (ChatMessage.visible data st) <-> hasContent data p = true).
Proof.
  intros Hs Hne Hn st.
  pose proof (@cm_revealed_five data s n Hs Hne Hn) as Hst. fold st in Hst.
  rewrite Hst. cbn [ChatMessage.revealedSections ChatMessage.summary option_map].
  split; [reflexivity|]. split.
  - unfold Typewriter.displayedText. cbn [Typewriter.words Typewriter.wordIndex].
    rewrite firstn_all. f_equal. apply concat_splitWords.
  - split; [reflexivity|]. apply visible_all. cbn. lia.
Qed.

Lemma stagger_zero (isLatest : bool) (tw : option Typewriter.State) :
  ChatMessage.stagger isLatest
    {| ChatMessage.revealedSections := 0; ChatMessage.summary := tw |} =
  {| ChatMessage.revealedSections := 0; ChatMessage.summary := tw |}.
Proof. unfold ChatMessage.stagger. cbn. rewrite andb_false_r. reflexivity. Qed.

Lemma cm_hidden (data : value) (n : nat) :
  truthy (GetOpt data (str "summary")) = false ->
  ChatMessage.ticks true n (ChatMessage.init true data) =
  ChatMessage.init true data.
Proof.
  intros Hs. unfold ChatMessage.init. rewrite Hs.
  induction n as [|n IH]; cbn [ChatMessage.ticks]; [reflexivity|].
  unfold ChatMessage.tick at 1. cbn [ChatMessage.summary].
  rewrite stagger_zero. exact IH.
Qed.

(** X8.  On the latest message without a summary nothing is ever
    revealed: [revealedSections] stays 0 through any number of timer
    events and the card shows no part at all, not even the disclaimer
    or the copy button. *)
Theorem latest_message_without_summary_stays_hidden (data : value) (n : nat) :
  truthy (GetOpt data (str "summary")) = false ->
  let st := ChatMessage.ticks true n (ChatMessage.init true data) in
  st = ChatMessage.init true data /\
  ChatMessage.revealedSections st = 0 /\
  ChatMessage.visible data st = [].
Proof.
  intros Hs st.
  assert (st = ChatMessage.init true data) as -> by exact (@cm_hidden data n Hs).
  split; [reflexivity|]. split; [reflexivity|].
  unfold ChatMessage.visible, ChatMessage.init. rewrite Hs. reflexivity.
Qed.

Lemma cm_not_latest (data : value) (n : nat) :
  ChatMessage.ticks false n (ChatMessage.init false data) =
  ChatMessage.init false data.
Proof.
  induction n as [|n IH]; cbn [ChatMessage.ticks]; [reflexivity|].
  assert (ChatMessage.tick false (ChatMessage.init false data) =
          ChatMessage.init false data) as ->; [|exact IH].
  unfold ChatMessage.tick, ChatMessage.init. cbn [ChatMessage.summary].
  destruct (truthy (GetOpt data (str "summary"))); [|reflexivity].
  assert (Typewriter.isTyping
            (Typewriter.start (ChatMessage.summaryText data) false) = false) as ->
    by (unfold Typewriter.start; destruct (ChatMessage.summaryText data); reflexivity).
  reflexivity.
Qed.

(** X9.  A message that is not the latest shows every part that has
    content from the start, and no timer event changes its state. *)
Theorem earlier_message_shows_all (data : value) (n : nat) :
  let st := ChatMessage.ticks false n (ChatMessage.init false data) in
  st = ChatMessage.init false data /\
  (forall p, In p (ChatMessage.visible data st) <-> hasContent data p = true).
Proof.
  intros st.
  assert (st = ChatMessage.init false data) as -> by exact (@cm_not_latest data n).
  split; [reflexivity|]. apply visible_all. cbn. lia.
Qed.

(** ** An answer on its card *)

(** The summary of a normalised response is a string or missing. *)
Lemma normalized_summary (raw shown : value) :
  normalizeData raw = Ok shown ->
  GetOpt shown (str "summary") = VStr (ChatMessage.summaryText shown) \/
  (GetOpt shown (str "summary") = VUndefined /\ ChatMessage.summaryText shown = []).
Proof.
  intros H. apply normalizeData_Ok_cases in H
    as [->|[(s & d & ->)|(s & l & y & steps & d & src & -> & _)]].
  - right. split; reflexivity.
  - left. reflexivity.
  - left. reflexivity.
Qed.

(** The card of the latest message: nothing at all when the normalised
    summary is empty; otherwise, once the summary is typed out and the
    sections are revealed, every part that has content. *)
Lemma card_latest (messageData shown : value) (n : nat) :
  normalizeData messageData = Ok shown ->
  (ChatMessage.summaryText shown = [] ->
   card msgNotFunction true n messageData = Ok []) /\
  (ChatMessage.summaryText shown <> [] ->
   List.length (Typewriter.splitWords (ChatMessage.summaryText shown)) + 5 <= n ->
   exists parts,
     card msgNotFunction true n messageData = Ok parts /\
     forall p, In p parts <-> hasContent shown p = true).
Proof.
  intros Hnorm. unfold card. rewrite Hnorm. cbn [bind].
  destruct (@formatForCopy_normalized_Ok messageData shown Hnorm) as [t ->]. cbn [bind].
  split.
  - intros Hempty.
    assert (truthy (GetOpt shown (str "summary")) = false) as Hs.
    { destruct (@normalized_summary messageData shown Hnorm) as [->|[-> _]]; [|reflexivity].
      rewrite Hempty. reflexivity. }
    rewrite (@cm_hidden shown n Hs). unfold ChatMessage.visible, ChatMessage.init.
    rewrite Hs. reflexivity.
  - intros Hne Hn.
    assert (GetOpt shown (str "summary") = VStr (ChatMessage.summaryText shown)) as Hs.
    { destruct (@normalized_summary messageData shown Hnorm) as [H|[_ H]]; [exact H|contradiction]. }
    rewrite (@cm_revealed_five shown _ n Hs Hne Hn). eexists. split; [reflexivity|].
    apply visible_all. cbn. lia.
Qed.

(** A response with a non-empty disclaimer and a non-empty summary has
    the disclaimer line on its card in the end. *)
Lemma card_shows_disclaimer (messageData shown : value) (d : jsstring) (n : nat) :
  normalizeData messageData = Ok shown ->
  GetOpt shown (str "disclaimer") = VStr d -> d <> [] ->
  ChatMessage.summaryText shown <> [] ->
  List.length (Typewriter.splitWords (ChatMessage.summaryText shown)) + 5 <= n ->
  showsDisclaimer (card msgNotFunction true n messageData).
Proof.
  intros Hnorm Hd Hne Hs Hn.
  destruct (proj2 (@card_latest messageData shown n Hnorm) Hs Hn) as (parts & Hcard & Hparts).
  exists parts. split; [exact Hcard|]. apply Hparts.
  cbn [hasContent]. rewrite Hd. destruct d; [contradiction|reflexivity].
Qed.

(** C10 (amended).  Every invocation of [handleSend] appends the user
    message and then exactly one assistant message, and leaves the
    loading flag false, whether [askQuestion] resolves or rejects.  On
    rejection the assistant message carries the default disclaimer,
    [normalizeData] keeps it, and the card of the message, which is the
    latest one, shows the disclaimer line once the apology is typed out
    and the sections are revealed.  On resolution with a JSON object
    (and the object the response is built from has no own [toString]
    property anywhere) the normalised data has a non-empty disclaimer;
    the card shows it in the end when the normalised summary is not
    empty, and shows nothing at all, at any time, when it is empty. *)
Theorem handleSend_appends_one_assistant
    (ask : jsstring -> option jsstring -> result value)
    (query : jsstring) (st : App.State) :
  exists data,
    App.messages (App.handleSend ask query st) =
      App.messages st ++ [App.UserMessage query; App.AssistantMessage data] /\
    App.isLoading (App.handleSend ask query st) = false /\
    (forall e, ask query (Some (App.language st)) = Throw e ->
       GetOpt data (str "disclaimer") = VStr defaultDisclaimer /\
       hasDisclaimer (normalizeData data) /\
       forall n,
         List.length (Typewriter.splitWords (ChatMessage.summaryText data)) + 5 <= n ->
         showsDisclaimer (card msgNotFunction true n data)) /\
    (forall props data',
       ask query (Some (App.language st)) = Ok (VObj props) ->
       unwrapSummary (VObj props) = Ok data' -> coercible data' = true ->
       exists shown,
         normalizeData data = Ok shown /\
         hasDisclaimer (normalizeData data) /\
         (forall n,
            ChatMessage.summaryText shown <> [] ->
            List.length (Typewriter.splitWords (ChatMessage.summaryText shown)) + 5 <= n ->
            showsDisclaimer (card msgNotFunction true n data)) /\
         (forall n,
            ChatMessage.summaryText shown = [] ->
            card msgNotFunction true n data = Ok [])).
Proof.
  unfold App.handleSend.
  destruct (ask query (Some (App.language st))) as [response|e];
    cbn [App.handleSend_settle App.handleSend_begin App.messages App.isLoading
         App.language].
  - exists response. rewrite <- app_assoc. split; [reflexivity|].
    split; [reflexivity|]. split; [intros e [=]|].
    intros props data' [= ->] Hun Hc.
    pose proof (@built_hasDisclaimer host props data' Hun Hc) as Hhas.
    destruct Hhas as (shown & d & Hnorm & Hd & Hne).
    exists shown. split; [exact Hnorm|].
    split; [exists shown, d; auto|]. split.
    + intros n Hs Hn. exact (@card_shows_disclaimer _ shown d n Hnorm Hd Hne Hs Hn).
    + intros n Hs. exact (proj1 (@card_latest _ shown n Hnorm) Hs).
  - exists (App.errorData (App.language st)). rewrite <- app_assoc.
    split; [reflexivity|]. split; [reflexivity|]. split; [|intros ? ? [=]].
    intros _ _. split; [reflexivity|].
    assert (exists shown,
              normalizeData (App.errorData (App.language st)) = Ok shown /\
              GetOpt shown (str "disclaimer") = VStr defaultDisclaimer /\
              ChatMessage.summaryText shown =
                ChatMessage.summaryText (App.errorData (App.language st)) /\
              ChatMessage.summaryText shown <> [])
      as (shown & Hnorm & Hd & Hsame & Hs).
    { unfold App.errorData. destruct (jseqb (App.language st) (str "hi"));
        (eexists; split; [vm_compute; reflexivity|];
         split; [reflexivity|]; split; [reflexivity|discriminate]). }
    split.
    + exists shown, defaultDisclaimer. split; [exact Hnorm|].
      split; [exact Hd|apply defaultDisclaimer_nonempty].
    + intros n Hn. rewrite <- Hsame in Hn.
      exact (@card_shows_disclaimer _ shown defaultDisclaimer n Hnorm Hd
               defaultDisclaimer_nonempty Hs Hn).
Qed.

(** ** The application between events *)

Lemma pair_induction {A : Type} (P : list A -> Prop) :
  P [] -> (forall x, P [x]) -> (forall x y l, P l -> P (x :: y :: l)) ->
  forall l, P l.
Proof.
  intros H0 H1 H2 l.
  assert (P l /\ forall x, P (x :: l)) as [H _]; [|exact H].
  induction l as [|y l [IH1 IH2]]; split; auto.
Qed.

Lemma alternates_ask (msgs : list App.message) (q : jsstring) :
  Session.alternates false msgs ->
  Session.alternates true (msgs ++ [App.UserMessage q]).
Proof.
  induction msgs as [|x|x y l IH] using pair_induction.
  - reflexivity.
  - destruct x; intros H; [discriminate H|contradiction].
  - destruct x as [c|d]; [|intros []]. destruct y as [c'|d']; [intros []|].
    exact IH.
Qed.

Lemma alternates_answer (msgs : list App.message) (d : value) :
  Session.alternates true msgs ->
  Session.alternates false (msgs ++ [App.AssistantMessage d]).
Proof.
  induction msgs as [|x|x y l IH] using pair_induction.
  - discriminate.
  - destruct x; intros H; [reflexivity|contradiction].
  - destruct x as [c|d0]; [|intros []]. destruct y as [c'|d']; [intros []|].
    exact IH.
Qed.

Lemma alternates_empty (loading : bool) :
  Session.alternates loading [] -> loading = false.
Proof. intros H; exact H. Qed.

Lemma input_step_sends (isLoading : bool) (draft : jsstring) (ev : ChatInput.event)
    (sent : list jsstring) (draft' : jsstring) :
  List.length draft <= 2000 ->
  ChatInput.step isLoading draft ev = Some (sent, draft') ->
  List.length draft' <= 2000 /\
  (sent = [] \/ (isLoading = false /\ exists q, sent = [q])).
Proof.
  intros Hlen Hstep.
  assert (forall s d, ChatInput.handleSubmit isLoading draft = (s, d) ->
            List.length d <= 2000 /\
            (s = [] \/ (isLoading = false /\ exists q, s = [q]))) as Hsub.
  { intros s d. rewrite handleSubmit_cases.
    destruct (nonBlank draft) , isLoading; cbn [andb negb]; intros [= <- <-];
      (split; [cbn; lia|]); eauto. }
  destruct ev as [v| |key shiftKey]; cbn [ChatInput.step] in Hstep.
  - destruct (ChatInput.userCanEnter (ChatInput.render draft isLoading) v) eqn:Hu;
      [|discriminate].
    injection Hstep as <- <-. split; [|left; reflexivity].
    unfold ChatInput.userCanEnter in Hu. apply andb_true_iff in Hu as [_ Hu].
    apply Nat.leb_le in Hu. exact Hu.
  - injection Hstep as Hstep. apply Hsub, Hstep.
  - unfold ChatInput.handleKeyDown in Hstep.
    destruct (jseqb key (str "Enter") && negb shiftKey).
    + injection Hstep as Hstep. apply Hsub, Hstep.
    + injection Hstep as <- <-. split; [exact Hlen|left; reflexivity].
Qed.

Lemma send_keeps_invariant (sys : Session.System) (q : jsstring) :
  sessionInvariant sys -> App.isLoading (Session.app sys) = false ->
  sessionInvariant (Session.sendAll [q] sys).
Proof.
  intros (Hlang & Halt & Hpend & Hdraft) Hidle.
  rewrite Hidle in Halt, Hpend.
  unfold sessionInvariant, Session.sendAll.
  cbn [fold_left Session.app Session.draft Session.pending App.handleSend_begin
       App.language App.isLoading App.messages].
  split; [exact Hlang|]. split; [apply alternates_ask, Halt|].
  split; [rewrite length_app, Hpend; reflexivity|exact Hdraft].
Qed.

Lemma step_keeps_invariant (sys sys' : Session.System) (ev : Session.event) :
  sessionInvariant sys -> Session.step sys ev = Some sys' -> sessionInvariant sys'.
Proof.
  intros Hinv Hstep. pose proof Hinv as (Hlang & Halt & Hpend & Hdraft).
  destruct ev as [iev|text|code|k outcome]; cbn [Session.step] in Hstep.
  - destruct (ChatInput.step (App.isLoading (Session.app sys)) (Session.draft sys) iev)
      as [[sent draft']|] eqn:Hin; [|discriminate].
    injection Hstep as <-.
    destruct (input_step_sends _ _ iev Hdraft Hin) as [Hd' [->|[Hidle [q ->]]]].
    + cbn [Session.sendAll fold_left].
      split; [exact Hlang|]. split; [exact Halt|]. split; [exact Hpend|exact Hd'].
    + apply send_keeps_invariant; [|exact Hidle].
      split; [exact Hlang|]. split; [exact Halt|]. split; [exact Hpend|exact Hd'].
  - destruct (App.messages (Session.app sys)) eqn:Hm; [|discriminate].
    injection Hstep as <-. apply send_keeps_invariant; [exact Hinv|].
    apply alternates_empty, Halt.
  - destruct (existsb (jseqb code) Session.languageCodes) eqn:Hc; [|discriminate].
    injection Hstep as <-.
    apply existsb_exists in Hc as (x & Hx & Heq). apply jseqb_eq in Heq as ->.
    split; [exact Hx|]. split; [exact Halt|]. split; [exact Hpend|exact Hdraft].
  - destruct (nth_error (Session.pending sys) k) as [lang|] eqn:Hk; [|discriminate].
    injection Hstep as <-.
    destruct (App.isLoading (Session.app sys)) eqn:Hload.
    + destruct (Session.pending sys) as [|l0 [|l1 rest]]; try discriminate Hpend.
      destruct k as [|k]; [|destruct k; discriminate Hk].
      unfold sessionInvariant.
      cbn [Session.app Session.draft Session.pending Session.removeNth].
      destruct outcome as [response|err];
        cbn [App.handleSend_settle App.language App.isLoading App.messages];
        (split; [exact Hlang|]); (split; [apply alternates_answer, Halt|]);
        (split; [reflexivity|exact Hdraft]).
    + destruct (Session.pending sys); [destruct k; discriminate Hk|discriminate Hpend].
Qed.

(** X10.  Through every sequence of events the interface offers (typing
    and submitting in the chat input, clicking a suggestion card while
    there is no message, switching the language, a pending call
    settling), the application keeps its invariant: the language is [en]
    or [hi]; the transcript is a sequence of question-answer pairs
    followed by one unanswered question exactly while loading; at most
    one call is awaiting its answer, and exactly one while loading; the
    text in the input has at most 2000 code units. *)
Theorem session_keeps_invariant (events : list Session.event) (sys : Session.System) :
  Session.run events Session.initial = Some sys -> sessionInvariant sys.
Proof.
  assert (forall start, sessionInvariant start ->
            Session.run events start = Some sys -> sessionInvariant sys) as H.
  { induction events as [|ev rest IH]; intros start Hinv; cbn [Session.run].
    - intros [= <-]. exact Hinv.
    - destruct (Session.step start ev) as [next|] eqn:Hstep; [|discriminate].
      apply IH. eapply step_keeps_invariant; eassumption. }
  apply H. repeat split; cbn; auto. lia.
Qed.

(** ** Suggestions and the chat input *)

Lemma word_not_space (c : N) :
  Session.wordOrDevanagari c = true -> isWhiteSpace c = false.
Proof.
  unfold Session.wordOrDevanagari, isWhiteSpace, isDigit. intros H.
  apply not_true_is_false. intros Hw.
  repeat rewrite ?orb_true_iff, ?andb_true_iff, ?N.leb_le, ?N.eqb_eq in H.
  repeat rewrite ?orb_true_iff, ?andb_true_iff, ?N.leb_le, ?N.eqb_eq in Hw.
  lia.
Qed.

(** X11.  The query made from a suggestion is either empty or begins
    with a word character or a Devanagari letter; it has no white space
    at either end; and cleaning it again changes nothing. *)
Theorem cleanQuery_idempotent (suggestion : jsstring) :
  Session.cleanQuery (Session.cleanQuery suggestion) = Session.cleanQuery suggestion /\
  trim (Session.cleanQuery suggestion) = Session.cleanQuery suggestion /\
  match Session.cleanQuery suggestion with
  | [] => True
  | c :: _ => Session.wordOrDevanagari c = true
  end.
Proof.
  unfold Session.cleanQuery.
  set (nonword := fun c => negb (Session.wordOrDevanagari c)).
  pose proof (dropWhile_head nonword suggestion) as Hhead.
  set (a := dropWhile nonword suggestion) in *.
  assert (match trim a with [] => True | c :: _ => Session.wordOrDevanagari c = true end)
    as Hfirst.
  { unfold trim, trimStart. rewrite dropWhile_fixed.
    - destruct (trimEnd_prefix a) as (ws & Ha & _).
      destruct (trimEnd a) as [|c t]; [exact I|].
      rewrite Ha in Hhead. cbn in Hhead. unfold nonword in Hhead.
      apply negb_false_iff, Hhead.
    - destruct a as [|c t]; [exact I|]. apply word_not_space.
      unfold nonword in Hhead. apply negb_false_iff, Hhead. }
  split; [|split; [apply trim_idempotent|exact Hfirst]].
  rewrite dropWhile_fixed; [apply trim_idempotent|].
  destruct (trim a) as [|c t]; [exact I|].
  unfold nonword. rewrite Hfirst. reflexivity.
Qed.

(** ** The chat input *)

(** C9.  [handleSubmit] calls [onSend] only when nothing is loading and
    the text has a code unit that is not white space; it then sends,
    once, the text without the white space around it, and clears the
    field.  Otherwise it sends nothing and leaves the text as it is.
    The textarea refuses an edit to more than 2000 code units, so in
    every session that starts from the empty field every query sent has
    between 1 and 2000 code units and the text never exceeds 2000.
    There is no lower bound: a text of one to four code units that
    neither begins nor ends with white space is sent as it is. *)
Theorem handleSubmit_sends_trimmed
    (events : list (ChatInput.event * bool)) (sent : list jsstring)
    (final : jsstring) :
  ChatInput.run events [] = Some (sent, final) ->
  (forall isLoading query,
     (ChatInput.handleSubmit isLoading query = ([], query) /\
      (isLoading = true \/ forallb isWhiteSpace query = true)) \/
     (exists q,
        ChatInput.handleSubmit isLoading query = ([q], []) /\
        isLoading = false /\ q <> [] /\ strippedOf query q)) /\
  (forall isLoading query v,
     2000 < List.length v ->
     ChatInput.step isLoading query (ChatInput.Change v) = None) /\
  Forall sendable sent /\
  List.length final <= 2000 /\
  (forall q,
     1 <= List.length q <= 4 -> startsVisible q -> startsVisible (rev q) ->
     ChatInput.handleSubmit false q = ([q], [])).
Proof.
  intros Hrun. split; [|split; [|split; [|split]]].
  - intros isLoading query. rewrite handleSubmit_cases. unfold nonBlank.
    destruct (trim query) as [|c t] eqn:Htrim.
    + left. split; [reflexivity|]. right. apply trim_blank, Htrim.
    + destruct isLoading; cbn [negb andb].
      * left. split; [reflexivity|left; reflexivity].
      * right. exists (c :: t). split; [reflexivity|]. split; [reflexivity|].
        split; [discriminate|]. rewrite <- Htrim. apply trim_strippedOf.
  - intros isLoading query v Hv. cbn [ChatInput.step].
    unfold ChatInput.userCanEnter, ChatInput.render.
    cbn [ChatInput.disabled ChatInput.maxLength].
    assert ((List.length v <=? 2000) = false) as -> by (apply Nat.leb_gt; lia).
    rewrite andb_false_r. reflexivity.
  - apply (run_sendable events []) in Hrun; [tauto|cbn; lia].
  - apply (run_sendable events []) in Hrun; [tauto|cbn; lia].
  - intros q Hlen Hh Hl. rewrite handleSubmit_cases. unfold nonBlank.
    rewrite (trim_fixed q Hh Hl). destruct q; [cbn in Hlen; lia|reflexivity].
Qed.

Lemma handleSubmit_trimmed (isLoading : bool) (query : jsstring) :
  Forall (fun q => trim q = q) (fst (ChatInput.handleSubmit isLoading query)).
Proof.
  rewrite handleSubmit_cases.
  destruct (nonBlank query && negb isLoading); cbn [fst]; repeat constructor.
  apply trim_idempotent.
Qed.

Lemma handleSubmit_loading (query : jsstring) :
  ChatInput.handleSubmit true query = ([], query).
Proof. rewrite handleSubmit_cases, andb_false_r. reflexivity. Qed.

(** X12.  In every session of the chat input, whatever text it starts
    from, each query handed to [onSend] has no white space at either
    end.  If the loading flag is up at every event, nothing is sent and
    the text does not change (edits are refused, submissions do
    nothing). *)
Theorem chat_input_sessions (events : list (ChatInput.event * bool))
    (query : jsstring) (sent : list jsstring) (final : jsstring) :
  ChatInput.run events query = Some (sent, final) ->
  Forall (fun q => trim q = q) sent /\
  (Forall (fun e => snd e = true) events -> sent = [] /\ final = query).
Proof.
  revert query sent final.
  induction events as [|[ev isLoading] rest IH]; intros query sent final Hrun.
  - injection Hrun as <- <-. split; [constructor|auto].
  - cbn [ChatInput.run] in Hrun.
    destruct (ChatInput.step isLoading query ev) as [[sentNow query']|] eqn:Hstep;
      [|discriminate].
    destruct (ChatInput.run rest query') as [[sentLater final']|] eqn:Hrest;
      [|discriminate].
    injection Hrun as <- <-. destruct (IH _ _ _ Hrest) as [Htrim Hload]. split.
    + apply Forall_app. split; [|exact Htrim].
      destruct ev as [v| |key shiftKey]; cbn [ChatInput.step] in Hstep.
      * destruct (ChatInput.userCanEnter _ v); [|discriminate].
        injection Hstep as <- <-. constructor.
      * injection Hstep as Hstep.
        pose proof (handleSubmit_trimmed isLoading query) as Hs.
        rewrite Hstep in Hs. exact Hs.
      * unfold ChatInput.handleKeyDown in Hstep.
        destruct (jseqb key (str "Enter") && negb shiftKey).
        -- injection Hstep as Hstep.
           pose proof (handleSubmit_trimmed isLoading query) as Hs.
           rewrite Hstep in Hs. exact Hs.
        -- injection Hstep as <- <-. constructor.
    + intros Hall. inversion Hall as [|? ? Hev Hrest']; subst. cbn [snd] in Hev.
      subst isLoading.
      assert (sentNow = [] /\ query' = query) as [-> ->].
      { destruct ev as [v| |key shiftKey]; cbn [ChatInput.step] in Hstep.
        - unfold ChatInput.userCanEnter, ChatInput.render in Hstep.
          cbn in Hstep. discriminate Hstep.
        - rewrite handleSubmit_loading in Hstep. injection Hstep as <- <-. auto.
        - unfold ChatInput.handleKeyDown in Hstep.
          rewrite handleSubmit_loading in Hstep.
          destruct (jseqb key (str "Enter") && negb shiftKey);
            injection Hstep as <- <-; auto. }
      destruct (Hload Hrest') as [-> ->]. auto.
Qed.

(** ** The other client calls *)

(** X13.  [checkHealth] resolves exactly when the fetch resolves and
    the body parses as JSON, whatever the status code.  [submitFeedback]
    resolves exactly when, moreover, the status is ok; for a status that
    is not ok it rejects with the fixed message, whatever the body. *)
Theorem other_client_calls
    (env : option jsstring) (fetch : Client.Request -> result Client.Response)
    (query : jsstring) (rating : value) (comment : option value) (v : value) :
  let request := ClientCalls.feedbackRequest env query rating
                   (match comment with Some c => c | None => VNull end) in
  (ClientCalls.checkHealth env fetch = Ok v <->
   exists response,
     fetch (ClientCalls.healthRequest env) = Ok response /\
     JSON_parse (Client.body response) = Ok v) /\
  (ClientCalls.submitFeedback env fetch query rating comment = Ok v <->
   exists response,
     fetch request = Ok response /\ Client.Response_ok response = true /\
     JSON_parse (Client.body response) = Ok v) /\
  (forall response,
     fetch request = Ok response -> Client.Response_ok response = false ->
     ClientCalls.submitFeedback env fetch query rating comment =
     Throw (Error (str "Failed to submit feedback"))).
Proof.
  intros request. unfold ClientCalls.checkHealth, ClientCalls.submitFeedback,
    Client.Response_json. fold request. repeat split.
  - destruct (fetch (ClientCalls.healthRequest env)) as [response|e];
      cbn [bind]; [|discriminate]. intros H. exists response. auto.
  - intros (response & -> & H). exact H.
  - destruct (fetch request) as [response|e]; cbn [bind]; [|discriminate].
    destruct (Client.Response_ok response) eqn:Hok; cbn [negb]; [|discriminate].
    intros H. exists response. auto.
  - intros (response & -> & Hok & H). cbn [bind]. rewrite Hok. exact H.
  - intros response -> Hok. cbn [bind]. rewrite Hok. reflexivity.
Qed.

(** ** [flattenToString] on flat data *)

Lemma mapM_itemText_strings (l : list jsstring) :
  mapM itemText (map VStr l) = Ok l.
Proof.
  induction l as [|a l IH]; cbn [map mapM]; [reflexivity|].
  cbn [itemText bind]. rewrite IH. reflexivity.
Qed.

Lemma Object_entries_named (props : list (jsstring * value)) :
  Forall (fun kv => arrayIndex (fst kv) = None) props ->
  Object_entries (VObj props) = props.
Proof.
  intros H. cbn [Object_entries].
  assert (indexedProps props = [] /\ namedProps props = props) as [-> ->];
    [|reflexivity].
  induction H as [|[k x] rest Hk _ [IH1 IH2]]; [split; reflexivity|].
  cbn [fst] in Hk. unfold namedProps in *. cbn [indexedProps filter fst].
  rewrite Hk, IH1, IH2. split; reflexivity.
Qed.

(** X14.  An array of strings flattens to the strings joined by a
    semicolon and a space.  An object whose values are strings and none
    of whose keys is an array index flattens to its [key: value] pairs,
    in the order of the object, joined by a full stop and a space. *)
Theorem flattenToString_flat (l : list jsstring) (fields : list (jsstring * jsstring)) :
  Forall (fun kv => arrayIndex (fst kv) = None) fields ->
  flattenToString (VArr (map VStr l)) = Ok (join (str "; ") l) /\
  flattenToString (VObj (map (fun kv => (fst kv, VStr (snd kv))) fields)) =
    Ok (join (str ". ") (map (fun kv => fst kv ++ str ": " ++ snd kv) fields)).
Proof.
  intros Hkeys. split.
  - cbn [flattenToString]. rewrite mapM_itemText_strings. reflexivity.
  - cbn [flattenToString]. unfold entriesText.
    rewrite Object_entries_named.
    + assert (mapM entryText (map (fun kv => (fst kv, VStr (snd kv))) fields) =
              Ok (map (fun kv => fst kv ++ str ": " ++ snd kv) fields)) as ->;
        [|reflexivity].
      clear Hkeys. induction fields as [|[k x] rest IH]; [reflexivity|].
      cbn [map mapM fst snd]. cbn [entryText ToString bind]. rewrite IH.
      reflexivity.
    + rewrite Forall_map. exact Hkeys.
Qed.

(** ** [normalizeData] on objects *)

(** X15.  A response object that already has the structured shape
    (string text fields, an array of strings as [next_steps], a
    non-empty string as [disclaimer], truthy [sources]) and whose
    summary does not begin with an opening brace passes through
    [normalizeData] with every field unchanged; only the six fields are
    kept, in the fixed order. *)
Theorem normalizeData_keeps_structured
    (props : list (jsstring * value)) (s l y d : jsstring)
    (steps : list jsstring) (sources : value) :
  GetOpt (VObj props) (str "summary") = VStr s ->
  GetOpt (VObj props) (str "relevant_law") = VStr l ->
  GetOpt (VObj props) (str "your_rights") = VStr y ->
  GetOpt (VObj props) (str "next_steps") = VArr (map VStr steps) ->
  GetOpt (VObj props) (str "disclaimer") = VStr d ->
  GetOpt (VObj props) (str "sources") = sources ->
  d <> [] -> truthy sources = true ->
  startsWith (str "{") (trim s) = false ->
  normalizeData (VObj props) =
  Ok (fullResponse s l y (VArr (map VStr steps)) d sources).
Proof.
  intros H1 H2 H3 H4 H5 H6 Hd Hsrc Hbrace.
  rewrite normalizeData_object.
  assert (unwrapSummary (VObj props) = Ok (VObj props)) as ->.
  { unfold unwrapSummary. rewrite Get_VObj, H1. cbn [bind].
    destruct s as [|c s]; [reflexivity|]. cbn [truthy].
    rewrite Hbrace. reflexivity. }
  cbn [bind]. unfold buildResponse.
  rewrite !Get_VObj, H1, H2, H3, H4, H5, H6. cbn [bind flattenToString nextSteps].
  rewrite mapM_flatten_strings. cbn [bind]. rewrite Hsrc.
  destruct d; [contradiction|reflexivity].
Qed.

Lemma normalizeData_fullResponse (s l y d : jsstring) (steps : list jsstring)
    (sources : value) :
  d <> [] -> truthy sources = true ->
  startsWith (str "{") (trim s) = false ->
  normalizeData (fullResponse s l y (VArr (map VStr steps)) d sources) =
  Ok (fullResponse s l y (VArr (map VStr steps)) d sources).
Proof.
  intros Hd Hsrc Hbrace. unfold fullResponse at 1. rewrite normalizeData_object.
  fold (fullResponse s l y (VArr (map VStr steps)) d sources).
  assert (unwrapSummary (fullResponse s l y (VArr (map VStr steps)) d sources) =
          Ok (fullResponse s l y (VArr (map VStr steps)) d sources)) as ->.
  { unfold unwrapSummary.
    change (Get (fullResponse s l y (VArr (map VStr steps)) d sources) (str "summary"))
      with (Ok (A := value) (VStr s)).
    cbn [bind]. destruct s as [|c s]; [reflexivity|]. cbn [truthy].
    rewrite Hbrace. reflexivity. }
  cbn [bind]. unfold buildResponse.
  change (Get (fullResponse s l y (VArr (map VStr steps)) d sources) (str "summary"))
    with (Ok (A := value) (VStr s)).
  change (Get (fullResponse s l y (VArr (map VStr steps)) d sources) (str "relevant_law"))
    with (Ok (A := value) (VStr l)).
  change (Get (fullResponse s l y (VArr (map VStr steps)) d sources) (str "your_rights"))
    with (Ok (A := value) (VStr y)).
  change (Get (fullResponse s l y (VArr (map VStr steps)) d sources) (str "next_steps"))
    with (Ok (VArr (map VStr steps))).
  change (Get (fullResponse s l y (VArr (map VStr steps)) d sources) (str "disclaimer"))
    with (Ok (A := value) (VStr d)).
  change (Get (fullResponse s l y (VArr (map VStr steps)) d sources) (str "sources"))
    with (Ok sources).
  cbn [bind flattenToString nextSteps].
  rewrite mapM_flatten_strings. cbn [bind]. rewrite Hsrc.
  destruct d; [contradiction|reflexivity].
Qed.

(** X16.  Normalising is idempotent on the responses built by the final
    literal: when [normalizeData] returned a response with [sources]
    whose summary does not begin with an opening brace, normalising
    that response again returns it unchanged.  (The empty object and
    the five-field early returns are not fixed points: normalising them
    again adds [sources] and the default [disclaimer].) *)
Theorem normalizeData_idempotent (raw r : value) :
  normalizeData raw = Ok r ->
  truthy (GetOpt r (str "sources")) = true ->
  startsWith (str "{") (trim (ChatMessage.summaryText r)) = false ->
  normalizeData r = Ok r /\
  normalizeData (VObj []) <> Ok (VObj []) /\
  (forall s d, normalizeData (plainResponse s d) <> Ok (plainResponse s d)).
Proof.
  intros H Hsrc Hbrace. split; [|split].
  - apply normalizeData_Ok_cases in H
      as [->|[(s & d & ->)|(s & l & y & steps & d & src & -> & Hd & Ht)]];
      try discriminate Hsrc.
    apply normalizeData_fullResponse; assumption.
  - cbv. discriminate.
  - intros s d H'. unfold plainResponse in H' at 1.
    rewrite normalizeData_object in H'.
    match type of H' with
    | bind ?m _ = _ => destruct m as [data'|e]; [|discriminate H']
    end.
    cbn [bind] in H'. apply buildResponse_Ok in H'
      as (a & b & c & e & f & g & H'). discriminate H'.
Qed.

(** ** From the request to the transcript *)

Lemma askQuestion_non_ok_throws
    (env : option jsstring) (fetch : Client.Request -> result Client.Response)
    (query lang : jsstring) (response : Client.Response) :
  fetch (Client.askRequest env query lang) = Ok response ->
  Client.Response_ok response = false ->
  exists e, Client.askQuestion env fetch query (Some lang) = Throw e.
Proof.
  intros Hf Hok. unfold Client.askQuestion. rewrite Hf. cbn [bind].
  rewrite Hok. cbn [negb].
  destruct (catch (Client.Response_json response) _) as [err|e]; cbn [bind];
    [|eauto].
  destruct (Get err (str "detail")) as [detail|e]; cbn [bind]; [|eauto].
  destruct (truthy detail); [destruct (ToString detail)|]; cbn [bind]; eauto.
Qed.

(** X17.  Whenever the request fails (the fetch rejects, or the
    response has a status that is not ok), [handleSend] ends with a
    non-empty error text in the state, the apology (in the language in
    force when the question was sent) as the answer after the question,
    and the loading flag down.  Whenever the response is ok and its
    body parses, the parsed body is the answer and the error is
    cleared. *)
Theorem handleSend_end_to_end
    (env : option jsstring) (fetch : Client.Request -> result Client.Response)
    (query : jsstring) (st : App.State) :
  let request := Client.askRequest env query (App.language st) in
  let st' := App.handleSend (Client.askQuestion env fetch) query st in
  ((exists e, fetch request = Throw e) \/
   (exists response,
      fetch request = Ok response /\ Client.Response_ok response = false) ->
   (exists text, App.error st' = Some text /\ text <> []) /\
   App.messages st' =
     App.messages st ++ [App.UserMessage query;
                         App.AssistantMessage (App.errorData (App.language st))] /\
   App.isLoading st' = false) /\
  (forall response v,
     fetch request = Ok response -> Client.Response_ok response = true ->
     JSON_parse (Client.body response) = Ok v ->
     App.error st' = None /\
     App.messages st' =
       App.messages st ++ [App.UserMessage query; App.AssistantMessage v] /\
     App.isLoading st' = false).
Proof.
  intros request st'. split.
  - intros Hfail.
    assert (exists e, Client.askQuestion env fetch query (Some (App.language st)) =
                      Throw e) as [e He].
    { destruct Hfail as [[e He]|(response & Hf & Hok)].
      - exists e. unfold Client.askQuestion. fold request. rewrite He. reflexivity.
      - eapply askQuestion_non_ok_throws; eassumption. }
    subst st'. unfold App.handleSend. rewrite He.
    cbn [App.handleSend_settle App.handleSend_begin App.messages App.isLoading
         App.error App.language].
    rewrite <- app_assoc. split; [|split; reflexivity].
    eexists. split; [reflexivity|]. destruct (exn_message e); discriminate.
  - intros response v Hf Hok Hv. subst st'. unfold App.handleSend.
    assert (Client.askQuestion env fetch query (Some (App.language st)) = Ok v) as ->.
    { unfold Client.askQuestion. fold request. rewrite Hf. cbn [bind].
      rewrite Hok. exact Hv. }
    cbn [App.handleSend_settle App.handleSend_begin App.messages App.isLoading
         App.error App.language].
    rewrite <- app_assoc. repeat split.
Qed.

(** ** Inputs that are neither strings nor objects; fence-free text *)

(** X18.  Only a string or an object can come out of [normalizeData]
    with a disclaimer: for every other input ([undefined], [null], a
    boolean, a number, an array) the result, if there is one, has no
    non-empty [disclaimer]. *)
Theorem normalizeData_no_disclaimer_for_other_inputs (raw : value) :
  isPlainObject raw = false -> (forall s, raw <> VStr s) ->
  ~ hasDisclaimer (normalizeData raw).
Proof.
  intros Hobj Hstr (v & d & Hv & Hd & Hne).
  assert (v = VObj [] \/ exists s, v = plainResponse s []) as [->|[s ->]].
  { unfold normalizeData in Hv.
    destruct raw as [ | | b | n | s | items | props ];
      try discriminate Hobj; try (exfalso; exact (Hstr s eq_refl));
      cbn [truthy negb parseRaw typeofObject isArray orb] in Hv.
    - injection Hv as <-. auto.
    - injection Hv as <-. auto.
    - destruct b; cbn [negb] in Hv; injection Hv as <-; eauto.
    - destruct (Number_isZero n); cbn [negb bind ToString] in Hv;
        injection Hv as <-; eauto.
    - destruct (ToString (VArr items)); cbn [bind] in Hv; [|discriminate Hv].
      injection Hv as <-. eauto. }
  - discriminate Hd.
  - injection Hd as <-. contradiction.
Qed.

Lemma startsWith_app (p q s : jsstring) :
  startsWith (p ++ q) s = true -> startsWith p s = true.
Proof.
  rewrite !startsWith_spec. intros [t ->]. exists (q ++ t).
  rewrite app_assoc. reflexivity.
Qed.

(** X19.  Fence stripping leaves a text without three backticks in a
    row exactly as it is. *)
Theorem stripFences_without_fence (s : jsstring) :
  includes (str "```") s = false -> stripFences s = s.
Proof.
  intros Hno.
  assert (forall a b, s = a ++ b -> startsWith (str "```") b = false) as Hanywhere.
  { intros a b ->. apply not_true_is_false. intros Hb.
    apply startsWith_spec in Hb as [t ->].
    assert (includes (str "```") (a ++ str "```" ++ t) = true) as Hin
      by (apply includes_spec; eauto).
    rewrite Hin in Hno. discriminate Hno. }
  unfold stripFences.
  rewrite (removeAll_no_match fenceOpenLen (s := s)).
  - apply removeAll_no_match. intros a b Hab. unfold fenceCloseLen.
    rewrite (Hanywhere a b Hab). reflexivity.
  - intros a b Hab. unfold fenceOpenLen.
    destruct (startsWith (str "```jso") b) eqn:Hb; [|reflexivity].
    apply (startsWith_app (str "```") (str "jso")) in Hb.
    rewrite (Hanywhere a b Hab) in Hb. discriminate Hb.
Qed.

End MoreProperties.

(* ================================================================== *)
(** * Concrete runs *)
(* ================================================================== *)

#[local] Existing Instance literalHost.

(** ** Counterexamples *)

(** C1 (counterexample).  The empty string normalises to the empty
    object, which has no [disclaimer] at all. *)
Lemma empty_string_has_no_disclaimer :
  ~ hasDisclaimer (normalizeData (VStr [])).
Proof.
  intros (v & d & Hv & Hd & _).
  vm_compute in Hv. injection Hv as <-. discriminate Hd.
Qed.

(** A text that parses to a number, an array or [null] comes back with
    the empty string as [disclaimer] (line 54). *)
Lemma non_object_json_has_empty_disclaimer :
  normalizeData (VStr (str "5")) = Ok (plainResponse (str "5") []) /\
  normalizeData (VStr (str "[1]")) = Ok (plainResponse (str "[1]") []) /\
  normalizeData (VStr (str "null")) = Ok (plainResponse (str "null") []).
Proof. repeat split; vm_compute; reflexivity. Qed.

(** The exception of [flattenToString] on an object with an own
    [toString] member reaches [normalizeData]. *)
Lemma normalizeData_throws_on_own_toString :
  normalizeData (VStr (str "{" ++ quoted "summary" ++ str ":" ++ ownToString ++ str "}")) =
  Throw (TypeError msgCannotConvert).
Proof. vm_compute. reflexivity. Qed.

(** C2 (counterexample).  For prose followed by an object, the third
    step of the specified chain (the first balanced brace span) parses,
    yet [normalizeData] returns the fallback: it is not true that the
    fallback is taken only when all the specified attempts fail. *)
Lemma fallback_although_a_span_parses :
  ~ (normalizeData (VStr proseThenObject) =
       Ok (plainResponse proseThenObject defaultDisclaimer) ->
     spec_parseAttempts proseThenObject = None).
Proof.
  intros H.
  assert (normalizeData (VStr proseThenObject) =
          Ok (plainResponse proseThenObject defaultDisclaimer)) as Hf
    by (vm_compute; reflexivity).
  apply H in Hf. vm_compute in Hf. discriminate Hf.
Qed.

(** The order of the steps matters as well: a text that parses directly
    is still stripped of fence markers first, which here rewrites the
    inside of a string. *)
Lemma fence_stripping_precedes_direct_parse :
  let raw := str "{" ++ quoted "summary" ++ str ":" ++ quoted "```json x" ++ str "}" in
  JSON_parse raw = Ok (VObj [(str "summary", VStr (str "```json x"))]) /\
  normalizeData (VStr raw) =
  Ok (fullResponse (str "x") [] [] (VArr []) defaultDisclaimer (VArr [])).
Proof. split; vm_compute; reflexivity. Qed.

(** C4 (counterexample).  The [summary] is the text of an object with a
    [summary] member, but that inner [summary] is the empty string: the
    inner object is not used, and the response is built from the outer
    one. *)
Lemma falsy_inner_summary_keeps_outer :
  exists props s inner,
    JSON_parse (trim (stripFences (doubleEncoded EmptyString))) = Ok (VObj props) /\
    lookup (str "summary") props = Some (VStr s) /\
    JSON_parse s = Ok (VObj inner) /\
    hasOwn (str "summary") inner = true /\
    normalizeData (VStr (doubleEncoded EmptyString)) <> buildResponse (VObj inner) /\
    normalizeData (VStr (doubleEncoded EmptyString)) = buildResponse (VObj props).
Proof.
  eexists _, _, _.
  split; [vm_compute; reflexivity|].
  split; [vm_compute; reflexivity|].
  split; [vm_compute; reflexivity|].
  split; [vm_compute; reflexivity|].
  split; [vm_compute; discriminate|vm_compute; reflexivity].
Qed.

(** C5 (counterexample).  A [next_steps] string of three lines with an
    empty middle line gives two steps, not the three lines of the
    string. *)
Lemma blank_lines_of_next_steps_dropped :
  exists props s r,
    JSON_parse (trim (stripFences blankLineSteps)) = Ok (VObj props) /\
    lookup (str "next_steps") props = Some (VStr s) /\
    normalizeData (VStr blankLineSteps) = Ok r /\
    split 10 s = [str "a"; []; str "b"] /\
    GetOpt r (str "next_steps") = VArr [VStr (str "a"); VStr (str "b")] /\
    GetOpt r (str "next_steps") <> VArr (map VStr (split 10 s)).
Proof.
  eexists _, _, _.
  split; [vm_compute; reflexivity|].
  split; [vm_compute; reflexivity|].
  split; [vm_compute; reflexivity|].
  split; [vm_compute; reflexivity|].
  split; [vm_compute; reflexivity|vm_compute; discriminate].
Qed.

(** C6 (counterexample).  A 500 response whose body is not JSON has no
    [detail], and the Error raised does not carry the text
    [Server error: 500] but [Unknown error]. *)
Lemma non_json_error_body_gives_unknown_error :
  let fetch := answering 500 (str "Internal Server Error") in
  (exists e, JSON_parse (str "Internal Server Error") = Throw e) /\
  Client.askQuestion None fetch (str "What is bail?") (Some (str "en")) =
    Throw (Error (str "Unknown error")) /\
  Client.askQuestion None fetch (str "What is bail?") (Some (str "en")) <>
    Throw (Error (str "Server error: " ++ decimal 500)).
Proof.
  split; [eexists; vm_compute; reflexivity|].
  split; [vm_compute; reflexivity|vm_compute; discriminate].
Qed.

(** C7 (counterexample).  With the backend up the handler sends status
    200 and the keys [status], [timestamp], [backend]; with the backend
    unreachable it sends status 500 and the keys [status], [timestamp],
    [message]: the two payloads do not have the same shape. *)
Lemma handler_payload_shapes_differ :
  let up := answering 200 (str "{" ++ quoted "status" ++ str ":" ++ quoted "healthy" ++ str "}") in
  let down := fun _ : Client.Request =>
                Throw (A := Client.Response) (TypeError (str "fetch failed")) in
  let now := str "2025-01-01T00:00:00.000Z" in
  let res := {| KeepAlive.statusCode := 200; KeepAlive.sent := [] |} in
  exists payloadUp payloadDown,
    KeepAlive.handler None up now res =
      Ok {| KeepAlive.statusCode := 200; KeepAlive.sent := [(200%N, payloadUp)] |} /\
    KeepAlive.handler None down now res =
      Ok {| KeepAlive.statusCode := 500; KeepAlive.sent := [(500%N, payloadDown)] |} /\
    KeepAlive.payloadShape payloadUp = [str "status"; str "timestamp"; str "backend"] /\
    KeepAlive.payloadShape payloadDown = [str "status"; str "timestamp"; str "message"] /\
    KeepAlive.payloadShape payloadUp <> KeepAlive.payloadShape payloadDown.
Proof.
  eexists _, _.
  split; [vm_compute; reflexivity|].
  split; [vm_compute; reflexivity|].
  split; [vm_compute; reflexivity|].
  split; [vm_compute; reflexivity|vm_compute; discriminate].
Qed.

(** C10 (counterexample).  When the backend answers 200 with the JSON
    text [null], [askQuestion] resolves with [null] and the assistant
    message carries it.  [normalizeData] turns it into the empty object,
    which has no disclaimer, and the card of the message never shows a
    disclaimer line, neither while it is the latest message nor as an
    earlier one. *)
Lemma null_response_renders_without_disclaimer :
  let ask := Client.askQuestion None (answering 200 (str "null")) in
  let st := {| App.messages := []; App.isLoading := false;
               App.language := str "en"; App.error := None |} in
  let msgs := App.messages (App.handleSend ask (str "What is bail?") st) in
  let notFunction := str "data.next_steps.forEach is not a function" in
  ~ (forall data,
       In (App.AssistantMessage data) msgs ->
       hasDisclaimer (normalizeData data)) /\
  ~ (forall data,
       In (App.AssistantMessage data) msgs ->
       exists isLatest n, showsDisclaimer (card notFunction isLatest n data)).
Proof.
  intros ask st msgs notFunction.
  assert (In (App.AssistantMessage VNull) msgs) as Hin
    by (vm_compute; right; left; reflexivity).
  split; intros H; specialize (H VNull Hin).
  - destruct H as (v & d & Hv & Hd & _).
    vm_compute in Hv. injection Hv as <-. discriminate Hd.
  - destruct H as (isLatest & n & parts & Hcard & Hline).
    unfold card in Hcard.
    change (normalizeData VNull) with (Ok (VObj [])) in Hcard. cbn [bind] in Hcard.
    change (formatForCopy notFunction (VObj [])) with (Ok (@nil N)) in Hcard.
    cbn [bind] in Hcard. destruct isLatest.
    + rewrite cm_hidden in Hcard by reflexivity.
      injection Hcard as <-. exact Hline.
    + rewrite cm_not_latest in Hcard.
      injection Hcard as <-. vm_compute in Hline.
      destruct Hline as [Hline|[]]. discriminate Hline.
Qed.

(** An answer without a summary: the normalised data has the default
    disclaimer, yet the card of the message, while it is the latest one,
    shows nothing at all, whatever the number of timer events. *)
Lemma answer_without_summary_shows_nothing (n : nat) :
  let ask := Client.askQuestion None (answering 200 lawOnly) in
  let st := {| App.messages := []; App.isLoading := false;
               App.language := str "en"; App.error := None |} in
  let notFunction := str "data.next_steps.forEach is not a function" in
  exists data,
    App.messages (App.handleSend ask (str "What is bail?") st) =
      [App.UserMessage (str "What is bail?"); App.AssistantMessage data] /\
    hasDisclaimer (normalizeData data) /\
    card notFunction true n data = Ok [].
Proof.
  intros ask st notFunction. eexists. split; [vm_compute; reflexivity|]. split.
  - eexists _, defaultDisclaimer.
    split; [vm_compute; reflexivity|].
    split; [reflexivity|apply defaultDisclaimer_nonempty].
  - eapply card_latest; [vm_compute; reflexivity|reflexivity].
Qed.

(** ** Instances of the theorems *)

(** C1 at the fenced object. *)
Lemma normalizeData_disclaimer_populated_witness :
  normalizeData (VStr []) = Ok (VObj []) /\
  hasDisclaimer (normalizeData (VStr fencedSummary)).
Proof.
  apply (normalizeData_disclaimer_populated (raw := fencedSummary)).
  - cbv; discriminate.
  - right. eexists _, _.
    split; [vm_compute; reflexivity|].
    split; [vm_compute; reflexivity|vm_compute; reflexivity].
Defined.

(** C2 at a text that is not JSON. *)
Lemma normalizeData_fallback_iff_parse_throws_witness :
  (normalizeData (VStr (str "not json")) =
     Ok (plainResponse (str "not json") defaultDisclaimer) <->
   exists e, JSON_parse (trim (stripFences (str "not json"))) = Throw e) /\
  (forall props,
     JSON_parse (trim (stripFences (str "not json"))) = Ok (VObj props) ->
     normalizeData (VStr (str "not json")) =
     (data' <- unwrapSummary (VObj props) ;; buildResponse data')).
Proof.
  apply (normalizeData_fallback_iff_parse_throws (raw := str "not json")).
  cbv; discriminate.
Defined.

(** C4 at an object whose [summary] encodes an object with a non-empty
    [summary]. *)
Lemma normalizeData_unwraps_double_encoded_witness :
  let inner := VObj [ (str "summary", VStr (str "in"));
                      (str "relevant_law", VStr (str "L")) ] in
  normalizeData (VStr (doubleEncoded "in")) = buildResponse inner /\
  (coercible inner = true -> exists r, buildResponse inner = Ok r).
Proof.
  eapply (normalizeData_unwraps_double_encoded (raw := doubleEncoded "in")).
  - cbv; discriminate.
  - vm_compute; reflexivity.
  - vm_compute; reflexivity.
  - vm_compute; reflexivity.
  - vm_compute; reflexivity.
  - vm_compute; reflexivity.
  - vm_compute; reflexivity.
Defined.

(** C5 at an object whose [next_steps] is a string. *)
Lemma normalizeData_coerces_shapes_witness :
  exists r,
    normalizeData (VStr blankLineSteps) = Ok r /\
    isString (GetOpt r (str "summary")) /\
    isStringArray (GetOpt r (str "next_steps")).
Proof.
  destruct (normalizeData_coerces_shapes (raw := blankLineSteps))
    as (r & Hr & Hsummary & _ & _ & _ & Hsteps & _).
  - cbv; discriminate.
  - intros props data' Hp Hun.
    vm_compute in Hp. injection Hp as <-.
    vm_compute in Hun. injection Hun as <-.
    vm_compute; reflexivity.
  - exists r. auto.
Defined.

(** C6 at a 404 response whose body carries a [detail]. *)
Lemma askQuestion_non_ok_raises_witness :
  let body := str "{" ++ quoted "detail" ++ str ":" ++ quoted "Not Found" ++ str "}" in
  Client.askQuestion None (answering 404 body) (str "What is bail?") (Some (str "en")) =
  Throw (Error (str "Not Found")).
Proof.
  intros body.
  destruct (askQuestion_non_ok_raises None (answering 404 body)
              (str "What is bail?") (Some (str "en"))
              (response := {| Client.status := 404; Client.body := body |}))
    as [Hbad _].
  - reflexivity.
  - destruct Hbad as (_ & _ & Hdetail & _); [reflexivity|].
    apply (Hdetail (VObj [(str "detail", VStr (str "Not Found"))])).
    + vm_compute; reflexivity.
    + vm_compute; reflexivity.
    + cbv; discriminate.
Defined.

(** C9 at a session that types a two-letter text with surrounding spaces
    and submits it. *)
Lemma handleSubmit_sends_trimmed_witness :
  Forall sendable [str "hi"] /\
  strippedOf (str " hi ") (str "hi") /\
  ChatInput.handleSubmit false (str "hi") = ([str "hi"], []).
Proof.
  destruct (handleSubmit_sends_trimmed
              [(ChatInput.Change (str " hi "), false); (ChatInput.Submit, false)]
              (sent := [str "hi"]) (final := []))
    as (Hcall & _ & Hsent & _ & Hshort).
  - vm_compute; reflexivity.
  - split; [exact Hsent|]. split.
    + destruct (Hcall false (str " hi ")) as [[Hnone _]|(q & Hq & _ & _ & Hstrip)].
      * vm_compute in Hnone. discriminate Hnone.
      * vm_compute in Hq. injection Hq as <-. exact Hstrip.
    + apply Hshort; [cbn; lia|vm_compute; reflexivity|vm_compute; reflexivity].
Defined.

(** C10 at a backend that answers 200 with the object whose only member
    is [summary] = [x]: six timer events after the answer arrived, its
    card shows the disclaimer line. *)
Lemma handleSend_appends_one_assistant_witness :
  let body := str "{" ++ quoted "summary" ++ str ":" ++ quoted "x" ++ str "}" in
  let ask := Client.askQuestion None (answering 200 body) in
  let st := {| App.messages := []; App.isLoading := false;
               App.language := str "en"; App.error := None |} in
  let notFunction := str "data.next_steps.forEach is not a function" in
  exists data,
    App.messages (App.handleSend ask (str "What is bail?") st) =
      [App.UserMessage (str "What is bail?"); App.AssistantMessage data] /\
    showsDisclaimer (card notFunction true 6 data).
Proof.
  intros body ask st notFunction.
  destruct (@handleSend_appends_one_assistant literalHost notFunction ask
              (str "What is bail?") st)
    as (data & Hmsgs & _ & _ & Hobject).
  exists data. split; [exact Hmsgs|].
  vm_compute in Hmsgs. injection Hmsgs as <-.
  destruct (Hobject [(str "summary", VStr (str "x"))]
                    (VObj [(str "summary", VStr (str "x"))]))
    as (shown & Hnorm & _ & Hshows & _).
  - vm_compute; reflexivity.
  - vm_compute; reflexivity.
  - vm_compute; reflexivity.
  - vm_compute in Hnorm. injection Hnorm as <-.
    apply Hshows; [discriminate|vm_compute; lia].
Defined.

(** ** Instances of the further properties *)

(** X1 at the fenced object. *)
Lemma normalizeData_result_shapes_witness :
  truthy (VStr fencedSummary) = true.
Proof.
  destruct (@normalizeData_result_shapes literalHost (VStr fencedSummary)
              (fullResponse (str "x") [] [] (VArr []) defaultDisclaimer (VArr [])))
    as [[H _]|[H _]].
  - vm_compute; reflexivity.
  - vm_compute in H. discriminate H.
  - exact H.
Defined.

(** X2 at the fenced object. *)
Lemma formatForCopy_of_normalized_witness :
  exists t,
    formatForCopy (str "data.next_steps.forEach is not a function")
      (fullResponse (str "x") [] [] (VArr []) defaultDisclaimer (VArr [])) = Ok t /\
    trim t = t.
Proof.
  apply (@formatForCopy_of_normalized literalHost
           (str "data.next_steps.forEach is not a function")
           (VStr fencedSummary)).
  vm_compute; reflexivity.
Defined.

(** X3 at the fenced object. *)
Lemma formatForCopy_ends_with_disclaimer_witness :
  exists body,
    formatForCopy (str "data.next_steps.forEach is not a function")
      (fullResponse (str "x") [] [] (VArr []) defaultDisclaimer (VArr [])) =
    Ok (body ++ warningSign :: trimEnd (32%N :: defaultDisclaimer)).
Proof.
  apply (@formatForCopy_ends_with_disclaimer literalHost
           (str "data.next_steps.forEach is not a function")
           (VStr fencedSummary)).
  - vm_compute; reflexivity.
  - vm_compute; reflexivity.
  - cbv; discriminate.
Defined.

(** X6 at a text of two words. *)
Lemma typewriter_completes_witness :
  Typewriter.isTyping
    (Typewriter.ticks 4 (Typewriter.start (str "a b") true)) = false /\
  Typewriter.displayedText
    (Typewriter.ticks 4 (Typewriter.start (str "a b") true)) = str "a b".
Proof.
  apply (proj2 (typewriter_completes (str "a b"))).
  - cbv; discriminate.
  - vm_compute. apply le_n.
Defined.

(** X7 at a response that has only a summary of two words. *)
Lemma latest_message_reveals_all_witness :
  ChatMessage.revealedSections
    (ChatMessage.ticks true 8
       (ChatMessage.init true (VObj [(str "summary", VStr (str "a b"))]))) = 5.
Proof.
  destruct (@latest_message_reveals_all literalHost
              (VObj [(str "summary", VStr (str "a b"))]) (str "a b") 8)
    as [H _].
  - vm_compute; reflexivity.
  - cbv; discriminate.
  - vm_compute. apply le_n.
  - exact H.
Defined.

(** X8 at a response that has only a disclaimer. *)
Lemma latest_message_without_summary_stays_hidden_witness :
  ChatMessage.visible (VObj [(str "disclaimer", VStr (str "d"))])
    (ChatMessage.ticks true 3
       (ChatMessage.init true (VObj [(str "disclaimer", VStr (str "d"))]))) = [].
Proof.
  destruct (@latest_message_without_summary_stays_hidden literalHost
              (VObj [(str "disclaimer", VStr (str "d"))]) 3)
    as (_ & _ & H).
  - vm_compute; reflexivity.
  - exact H.
Defined.

(** X10 at a session that types a text, submits it, and gets [null] as
    the answer. *)
Lemma session_keeps_invariant_witness :
  exists sys,
    Session.run [ Session.Input (ChatInput.Change (str "hi"));
                  Session.Input ChatInput.Submit;
                  Session.Settled 0 (Ok VNull) ] Session.initial = Some sys /\
    sessionInvariant sys.
Proof.
  eexists. split.
  - vm_compute; reflexivity.
  - apply (@session_keeps_invariant literalHost
             [ Session.Input (ChatInput.Change (str "hi"));
               Session.Input ChatInput.Submit;
               Session.Settled 0 (Ok VNull) ]).
    vm_compute; reflexivity.
Defined.

(** X12 at a session that types a two-letter text with surrounding
    spaces and submits it. *)
Lemma chat_input_sessions_witness :
  Forall (fun q => trim q = q) [str "hi"].
Proof.
  destruct (@chat_input_sessions
              [(ChatInput.Change (str " hi "), false); (ChatInput.Submit, false)]
              [] [str "hi"] []) as [H _].
  - vm_compute; reflexivity.
  - exact H.
Defined.

(** X13 at a server that answers 500. *)
Lemma other_client_calls_witness :
  ClientCalls.submitFeedback None (answering 500 (str "oops"))
    (str "What is bail?") VNull None =
  Throw (Error (str "Failed to submit feedback")).
Proof.
  destruct (other_client_calls None (answering 500 (str "oops"))
              (str "What is bail?") VNull None VNull) as (_ & _ & H).
  apply (H {| Client.status := 500; Client.body := str "oops" |});
    reflexivity.
Defined.

(** X14 at two strings and at one field. *)
Lemma flattenToString_flat_witness :
  flattenToString (VArr [VStr (str "a"); VStr (str "b")]) = Ok (str "a; b") /\
  flattenToString (VObj [(str "k", VStr (str "v"))]) = Ok (str "k: v").
Proof.
  apply (@flattenToString_flat literalHost [str "a"; str "b"] [(str "k", str "v")]).
  repeat constructor.
Defined.

(** X15 at a structured response with one step. *)
Lemma normalizeData_keeps_structured_witness :
  normalizeData
    (VObj [ (str "disclaimer", VStr (str "d"));
            (str "summary", VStr (str "s"));
            (str "extra", VNull);
            (str "next_steps", VArr [VStr (str "a")]);
            (str "relevant_law", VStr (str "l"));
            (str "your_rights", VStr (str "y"));
            (str "sources", VArr []) ]) =
  Ok (fullResponse (str "s") (str "l") (str "y") (VArr [VStr (str "a")])
        (str "d") (VArr [])).
Proof.
  apply (@normalizeData_keeps_structured literalHost _ (str "s") (str "l")
           (str "y") (str "d") [str "a"] (VArr []));
    try (vm_compute; reflexivity).
  cbv; discriminate.
Defined.

(** X16 at the fenced object. *)
Lemma normalizeData_idempotent_witness :
  normalizeData
    (fullResponse (str "x") [] [] (VArr []) defaultDisclaimer (VArr [])) =
  Ok (fullResponse (str "x") [] [] (VArr []) defaultDisclaimer (VArr [])).
Proof.
  refine (proj1 (@normalizeData_idempotent literalHost (VStr fencedSummary)
                   (fullResponse (str "x") [] [] (VArr []) defaultDisclaimer (VArr []))
                   _ _ _)); vm_compute; reflexivity.
Defined.

(** X17 at a server that answers 500 with a body that is not JSON. *)
Lemma handleSend_end_to_end_witness :
  let st := {| App.messages := []; App.isLoading := false;
               App.language := str "en"; App.error := None |} in
  App.isLoading
    (App.handleSend (Client.askQuestion None (answering 500 (str "oops")))
       (str "What is bail?") st) = false.
Proof.
  intros st.
  destruct (handleSend_end_to_end None (answering 500 (str "oops"))
              (str "What is bail?") st) as [H _].
  destruct H as (_ & _ & H); [|exact H].
  right. eexists. split; reflexivity.
Defined.

(** X18 at an array of one string. *)
Lemma normalizeData_no_disclaimer_for_other_inputs_witness :
  ~ hasDisclaimer (normalizeData (VArr [VStr (str "a")])).
Proof.
  apply normalizeData_no_disclaimer_for_other_inputs.
  - reflexivity.
  - intros s H. discriminate H.
Defined.

(** X19 at the text of the empty object. *)
Lemma stripFences_without_fence_witness :
  stripFences (str "{}") = str "{}".
Proof.
  apply stripFences_without_fence. vm_compute; reflexivity.
Defined.
